(** * Expense tracker: persistence shim and aggregation core

    A shallow embedding of [storage.ts] (the [loadData] / [saveData]
    shim) and of the state, mutation handlers and aggregate computation
    of the [App] component, together with the parts of the JavaScript
    runtime these rely on: IEEE-754 numbers, [parseFloat], [JSON],
    [localStorage], [Date] and [Array.prototype.sort]. *)

From Stdlib Require Import ZArith Floats List Ascii String Lia.
From stdpp Require Import base option list gmap strings pretty sorting.
Import ListNotations.

Local Open Scope Z_scope.
Set Warnings "-register-all".

(** ** JavaScript numbers

    A JS number is an IEEE-754 binary64 value; Rocq's primitive [float]
    is the same format with the same rounding (nearest, ties to even),
    so [+], [-] and the comparisons are used as they are. *)

Module Num.

Definition number := float.

Definition NaN : number := PrimFloat.nan.
Definition pos_zero : number := PrimFloat.zero.
Definition neg_zero : number := PrimFloat.neg_zero.
Definition Infinity : number := PrimFloat.infinity.

(** [isNaN(x)] on a number. *)
Definition isNaN (x : number) : bool := PrimFloat.is_nan x.

(** [ToBoolean] on a number: [NaN], [+0] and [-0] are falsy. *)
Definition truthy (x : number) : bool :=
  negb (PrimFloat.is_nan x || PrimFloat.is_zero x).

(** [x || d] for a number [x]. *)
Definition or_else (x d : number) : number := if truthy x then x else d.

(** [a === b] on numbers ([NaN] differs from itself, [+0 === -0]). *)
Definition strict_eq (a b : number) : bool := PrimFloat.eqb a b.

(** [a > b]. *)
Definition gt (a b : number) : bool := PrimFloat.ltb b a.

(** The number nearest to an integer. *)
Definition of_Z (z : Z) : number :=
  SF2Prim (binary_normalize prec emax z 0 false).

(** The number nearest to [(-1)^neg * m * 10^e], for [0 <= m]: the
    rounding of a decimal literal ([StringNumericValue]). *)
Definition of_decimal (neg : bool) (m e : Z) : number :=
  match m with
  | Z0 => if neg then neg_zero else pos_zero
  | Zpos _ =>
      if 0 <=? e
      then SF2Prim (binary_round prec emax neg (Z.to_pos (m * 10 ^ e)) 0)
      else
        let '(q, ez, l) := SFdiv_core_binary prec emax m 0 (10 ^ (- e)) 0 in
        SF2Prim (binary_round_aux prec emax neg q ez l)
  | Zneg _ => NaN
  end.

(** *** [parseFloat]

    Text is a [string] of bytes holding UTF-8.  [parseFloat] trims
    leading white space, takes the longest prefix that is a
    [StrDecimalLiteral] and rounds its value; without such a prefix
    the result is [NaN]. *)

Definition digit (c : ascii) : option Z :=
  let n := Z.of_N (N_of_ascii c) in
  if (48 <=? n) && (n <=? 57) then Some (n - 48) else None.

Fixpoint digits (s : string) : list Z * string :=
  match s with
  | String c s' =>
      match digit c with
      | Some d => let '(ds, r) := digits s' in (d :: ds, r)
      | None => ([], s)
      end
  | EmptyString => ([], s)
  end.

Definition Z_of_digits (ds : list Z) : Z :=
  fold_left (fun acc d => 10 * acc + d) ds 0.

Definition byte (c : ascii) : Z := Z.of_N (N_of_ascii c).

(** [TrimString(_, start)]: TAB, LF, VT, FF, CR, SP, and the UTF-8
    encodings of U+00A0, U+1680, U+2000..U+200A, U+2028, U+2029,
    U+202F, U+205F, U+3000 and U+FEFF. *)
Fixpoint trim_start (s : string) : string :=
  match s with
  | String c1 r1 =>
      let b1 := byte c1 in
      if ((9 <=? b1) && (b1 <=? 13)) || (b1 =? 32) then trim_start r1
      else
        match r1 with
        | String c2 r2 =>
            let b2 := byte c2 in
            if (b1 =? 194) && (b2 =? 160) then trim_start r2
            else
              match r2 with
              | String c3 r3 =>
                  let b3 := byte c3 in
                  if ((b1 =? 225) && (b2 =? 154) && (b3 =? 128))
                     || ((b1 =? 226) && (b2 =? 128)
                         && (((128 <=? b3) && (b3 <=? 138))
                             || (b3 =? 168) || (b3 =? 169) || (b3 =? 175)))
                     || ((b1 =? 226) && (b2 =? 129) && (b3 =? 159))
                     || ((b1 =? 227) && (b2 =? 128) && (b3 =? 128))
                     || ((b1 =? 239) && (b2 =? 187) && (b3 =? 191))
                  then trim_start r3
                  else s
              | EmptyString => s
              end
        | EmptyString => s
        end
  | EmptyString => s
  end.

Fixpoint strip_prefix (p s : string) : option string :=
  match p, s with
  | EmptyString, _ => Some s
  | String a p', String b s' =>
      if Ascii.eqb a b then strip_prefix p' s' else None
  | String _ _, EmptyString => None
  end.

(** A scanned [StrDecimalLiteral]: [Infinity], or integer digits,
    fraction digits and a decimal exponent. *)
Inductive literal :=
| LInfinity (neg : bool)
| LDecimal (neg : bool) (int frac : list Z) (exp : Z).

(** [ExponentPart], when one is well formed at the head of [s]. *)
Definition exponent_part (s : string) : Z :=
  match s with
  | String c r =>
      if Ascii.eqb c "e" || Ascii.eqb c "E" then
        let '(neg, r') :=
          match r with
          | String "-" r' => (true, r')
          | String "+" r' => (false, r')
          | _ => (false, r)
          end in
        let '(ds, _) := digits r' in
        match ds with
        | [] => 0
        | _ => if neg then - Z_of_digits ds else Z_of_digits ds
        end
      else 0
  | EmptyString => 0
  end.

Definition scan_unsigned (neg : bool) (s : string) : option literal :=
  match strip_prefix "Infinity" s with
  | Some _ => Some (LInfinity neg)
  | None =>
      let '(ip, r1) := digits s in
      match r1 with
      | String "." r2 =>
          let '(fp, r3) := digits r2 in
          match ip, fp with
          | [], [] => None
          | _, _ => Some (LDecimal neg ip fp (exponent_part r3))
          end
      | _ =>
          match ip with
          | [] => None
          | _ => Some (LDecimal neg ip [] (exponent_part r1))
          end
      end
  end.

(** The longest prefix of [s] that is a [StrDecimalLiteral]. *)
Definition scan_literal (s : string) : option literal :=
  match s with
  | String "-" r => scan_unsigned true r
  | String "+" r => scan_unsigned false r
  | _ => scan_unsigned false s
  end.

Definition literal_value (l : literal) : number :=
  match l with
  | LInfinity neg => if neg then PrimFloat.neg_infinity else Infinity
  | LDecimal neg ip fp ex =>
      of_decimal neg (Z_of_digits (ip ++ fp)) (ex - Z.of_nat (length fp))
  end.

Definition parseFloat (s : string) : number :=
  match scan_literal (trim_start s) with
  | Some l => literal_value l
  | None => NaN
  end.

(** *** [Number::toString]

    The shortest decimal that rounds back to the number, laid out as
    ECMAScript prescribes.  A positive finite number is the rational
    [p / q]. *)

Definition rational_of (m : positive) (e : Z) : Z * Z :=
  if 0 <=? e then (Zpos m * 2 ^ e, 1) else (Zpos m, 2 ^ (- e)).

(** [10^k <= p / q]. *)
Definition ge_pow10 (p q k : Z) : bool :=
  if 0 <=? k then q * 10 ^ k <=? p else q <=? p * 10 ^ (- k).

Fixpoint position_up (fuel : nat) (p q n : Z) : Z :=
  match fuel with
  | O => n
  | S f => if ge_pow10 p q n then position_up f p q (n + 1) else n
  end.

Fixpoint position_down (fuel : nat) (p q n : Z) : Z :=
  match fuel with
  | O => n
  | S f => if ge_pow10 p q (n - 1) then n else position_down f p q (n - 1)
  end.

(** The [n] with [10^(n-1) <= p / q < 10^n]; binary64 stays within
    [-324 < n < 310]. *)
Definition position (p q : Z) : Z :=
  if ge_pow10 p q 0 then position_up 400 p q 0 else position_down 400 p q 0.

(** The [k]-digit decimal [s * 10^(n-k)] nearest to [p / q], when it
    rounds to [x]. *)
Definition digits_at (x : number) (p q n k : Z) : option (Z * Z) :=
  let '(num, den) :=
    if 0 <=? k - n then (p * 10 ^ (k - n), q) else (p, q * 10 ^ (n - k)) in
  let lo := num / den in
  let r := num mod den in
  let hi := lo + 1 in
  let ok s := PrimFloat.eqb (of_decimal false s (n - k)) x in
  let norm s := if s =? 10 ^ k then (10 ^ (k - 1), n + 1) else (s, n) in
  let prefer_lo := (2 * r <? den) || ((2 * r =? den) && Z.even lo) in
  match ok lo, ok hi with
  | true, true => Some (norm (if prefer_lo then lo else hi))
  | true, false => Some (norm lo)
  | false, true => Some (norm hi)
  | false, false => None
  end.

Fixpoint shortest (fuel : nat) (x : number) (p q n k : Z) : Z * Z * Z :=
  match fuel with
  | O => (p * 10 ^ (17 - n) / q, n, 17)
  | S f =>
      match digits_at x p q n k with
      | Some (s, n') => (s, n', k)
      | None => shortest f x p q n (k + 1)
      end
  end.

Definition zeros (n : Z) : string := String.concat "" (repeat "0" (Z.to_nat n)).

Definition layout (s n k : Z) : string :=
  let ds := pretty s in
  if (k <=? n) && (n <=? 21) then ds +:+ zeros (n - k)
  else if (0 <? n) && (n <=? 21) then
    String.substring 0 (Z.to_nat n) ds +:+ "." +:+
    String.substring (Z.to_nat n) (Z.to_nat (k - n)) ds
  else if (-6 <? n) && (n <=? 0) then "0." +:+ zeros (- n) +:+ ds
  else
    let e := n - 1 in
    let es := (if e <? 0 then "-" else "+") +:+ pretty (Z.abs e) in
    if k =? 1 then ds +:+ "e" +:+ es
    else String.substring 0 1 ds +:+ "." +:+
         String.substring 1 (Z.to_nat (k - 1)) ds +:+ "e" +:+ es.

Definition toString (x : number) : string :=
  match Prim2SF x with
  | S754_nan => "NaN"
  | S754_zero _ => "0"
  | S754_infinity neg => if neg then "-Infinity" else "Infinity"
  | S754_finite neg m e =>
      let '(p, q) := rational_of m e in
      let '(s, n, k) := shortest 17 (PrimFloat.abs x) p q (position p q) 1 in
      (if neg then "-" else "") +:+ layout s n k
  end.

End Num.

(** ** JavaScript values and [JSON] *)

Module JS.

(** The values that [JSON.parse] yields and [JSON.stringify] reads,
    and [undefined].  An object keeps its own properties in insertion
    order, each key once (keys that read as array indices, which
    JavaScript lists first, do not occur in this program). *)
Inductive value :=
| Undefined
| Null
| Bool (b : bool)
| Number (x : Num.number)
| Str (s : string)
| Arr (items : list value)
| Obj (props : list (string * value)).

Inductive exn :=
| SyntaxError
| TypeError
| SecurityError
| QuotaExceededError.

(** A computation that returns or throws. *)
Inductive result (A : Type) :=
| Return (a : A)
| Throw (e : exn).
Arguments Return {A} a.
Arguments Throw {A} e.

Definition bind {A B} (r : result A) (k : A -> result B) : result B :=
  match r with
  | Return a => k a
  | Throw e => Throw e
  end.

Notation "'let*' x ':=' r 'in' k" := (bind r (fun x => k))
  (at level 10, x pattern, r at level 100, k at level 200).

(** [ToBoolean]. *)
Definition truthy (v : value) : bool :=
  match v with
  | Undefined | Null => false
  | Bool b => b
  | Number x => Num.truthy x
  | Str s => negb (String.eqb s "")
  | Arr _ | Obj _ => true
  end.

(** [v || d]. *)
Definition or_else (v d : value) : value := if truthy v then v else d.

Fixpoint own_property (k : string) (props : list (string * value)) : value :=
  match props with
  | [] => Undefined
  | (k', v) :: rest => if String.eqb k k' then v else own_property k rest
  end.

(** [props[k] = v] on an object: replaces in place or appends. *)
Fixpoint set_property (k : string) (v : value) (props : list (string * value))
  : list (string * value) :=
  match props with
  | [] => [(k, v)]
  | (k', v') :: rest =>
      if String.eqb k k' then (k, v) :: rest
      else (k', v') :: set_property k v rest
  end.

(** [v.k] for a key [k] that no prototype defines (such as
    "expenses"): a [TypeError] on [undefined] and [null], the own
    property on an object, [undefined] on the other values. *)
Definition get (v : value) (k : string) : result value :=
  match v with
  | Undefined | Null => Throw TypeError
  | Obj props => Return (own_property k props)
  | _ => Return Undefined
  end.

(** *** [JSON.stringify] *)

Definition dquote : string := String "034"%char EmptyString.

Definition hex_digit (n : Z) : string :=
  String.substring (Z.to_nat n) 1 "0123456789abcdef".

(** [QuoteJSONString], without the enclosing quotes. *)
Fixpoint escape (s : string) : string :=
  match s with
  | EmptyString => EmptyString
  | String c r =>
      let b := Num.byte c in
      (if b =? 34 then "\" +:+ dquote
       else if b =? 92 then "\\"
       else if b =? 8 then "\b"
       else if b =? 9 then "\t"
       else if b =? 10 then "\n"
       else if b =? 12 then "\f"
       else if b =? 13 then "\r"
       else if b <? 32 then "\u00" +:+ hex_digit (b / 16) +:+ hex_digit (b mod 16)
       else String c EmptyString) +:+ escape r
  end.

Definition quote (s : string) : string := dquote +:+ escape s +:+ dquote.

Definition join (parts : list string) : string := String.concat "," parts.

(** [SerializeJSONProperty]: [None] stands for [undefined], which an
    array prints as [null] and an object leaves out. *)
Fixpoint serialize (v : value) : option string :=
  match v with
  | Undefined => None
  | Null => Some "null"
  | Bool b => Some (if b then "true" else "false")
  | Number x =>
      match Prim2SF x with
      | S754_nan | S754_infinity _ => Some "null"
      | _ => Some (Num.toString x)
      end
  | Str s => Some (quote s)
  | Arr items =>
      let fix elements (l : list value) : list string :=
        match l with
        | [] => []
        | v :: l' => default "null" (serialize v) :: elements l'
        end in
      Some ("[" +:+ join (elements items) +:+ "]")
  | Obj props =>
      let fix members (l : list (string * value)) : list string :=
        match l with
        | [] => []
        | (k, v) :: l' =>
            match serialize v with
            | Some t => (quote k +:+ ":" +:+ t) :: members l'
            | None => members l'
            end
        end in
      Some ("{" +:+ join (members props) +:+ "}")
  end.

(** *** [JSON.parse] *)

Fixpoint skip_ws (s : string) : string :=
  match s with
  | String c r =>
      let b := Num.byte c in
      if (b =? 32) || (b =? 9) || (b =? 10) || (b =? 13) then skip_ws r else s
  | EmptyString => s
  end.

Definition hex_value (c : ascii) : option Z :=
  let b := Num.byte c in
  if (48 <=? b) && (b <=? 57) then Some (b - 48)
  else if (97 <=? b) && (b <=? 102) then Some (b - 87)
  else if (65 <=? b) && (b <=? 70) then Some (b - 55)
  else None.

Definition hex4 (a b c d : ascii) : option Z :=
  match hex_value a, hex_value b, hex_value c, hex_value d with
  | Some x, Some y, Some z, Some w => Some (((x * 16 + y) * 16 + z) * 16 + w)
  | _, _, _, _ => None
  end.

Definition simple_escape (c : ascii) : option Z :=
  let b := Num.byte c in
  if (b =? 34) || (b =? 92) || (b =? 47) then Some b
  else if b =? 98 then Some 8
  else if b =? 102 then Some 12
  else if b =? 110 then Some 10
  else if b =? 114 then Some 13
  else if b =? 116 then Some 9
  else None.

(** The characters of a string literal after its opening quote:
    bytes ([inl]) and the code units of [\u] escapes ([inr]). *)
Fixpoint string_body (s : string) : option (list (Z + Z) * string) :=
  match s with
  | EmptyString => None
  | String c r =>
      let b := Num.byte c in
      if b =? 34 then Some ([], r)
      else if b =? 92 then
        match r with
        | String e r' =>
            if Num.byte e =? 117 then
              match r' with
              | String h1 (String h2 (String h3 (String h4 r''))) =>
                  match hex4 h1 h2 h3 h4, string_body r'' with
                  | Some u, Some (l, rest) => Some (inr u :: l, rest)
                  | _, _ => None
                  end
              | _ => None
              end
            else
              match simple_escape e, string_body r' with
              | Some x, Some (l, rest) => Some (inl x :: l, rest)
              | _, _ => None
              end
        | EmptyString => None
        end
      else if b <? 32 then None
      else
        match string_body r with
        | Some (l, rest) => Some (inl b :: l, rest)
        | None => None
        end
  end.

(** UTF-8 of a code point (a lone surrogate is encoded like any
    other three-byte code point). *)
Definition utf8 (cp : Z) : list Z :=
  if cp <? 128 then [cp]
  else if cp <? 2048 then [192 + cp / 64; 128 + cp mod 64]
  else if cp <? 65536 then
    [224 + cp / 4096; 128 + (cp / 64) mod 64; 128 + cp mod 64]
  else
    [240 + cp / 262144; 128 + (cp / 4096) mod 64;
     128 + (cp / 64) mod 64; 128 + cp mod 64].

Fixpoint bytes_of_items (l : list (Z + Z)) : list Z :=
  match l with
  | [] => []
  | inl b :: rest => b :: bytes_of_items rest
  | inr hi :: rest =>
      match rest with
      | inr lo :: rest' =>
          if (55296 <=? hi) && (hi <=? 56319) && (56320 <=? lo) && (lo <=? 57343)
          then utf8 (65536 + (hi - 55296) * 1024 + (lo - 56320))
                 ++ bytes_of_items rest'
          else utf8 hi ++ bytes_of_items rest
      | _ => utf8 hi ++ bytes_of_items rest
      end
  end.

Definition string_of_bytes (l : list Z) : string :=
  fold_right (fun b s => String (ascii_of_N (Z.to_N b)) s) EmptyString l.

Definition string_literal (s : string) : option (string * string) :=
  match string_body s with
  | Some (l, rest) => Some (string_of_bytes (bytes_of_items l), rest)
  | None => None
  end.

(** A JSON number at the head of [s]. *)
Definition number_literal (s : string) : option (Num.number * string) :=
  let '(neg, s1) :=
    match s with String "-" r => (true, r) | _ => (false, s) end in
  let '(ip, r1) := Num.digits s1 in
  match ip with
  | [] => None
  | d :: ip' =>
      if (d =? 0) && negb (length ip' =? 0)%nat then None
      else
        let frac :=
          match r1 with
          | String "." r2 =>
              let '(fp, r3) := Num.digits r2 in
              match fp with [] => None | _ => Some (fp, r3) end
          | _ => Some ([], r1)
          end in
        match frac with
        | None => None
        | Some (fp, r3) =>
            let exp :=
              match r3 with
              | String c r4 =>
                  if Ascii.eqb c "e" || Ascii.eqb c "E" then
                    let '(eneg, r5) :=
                      match r4 with
                      | String "-" r5 => (true, r5)
                      | String "+" r5 => (false, r5)
                      | _ => (false, r4)
                      end in
                    let '(ds, r6) := Num.digits r5 in
                    match ds with
                    | [] => None
                    | _ => Some (if eneg then - Num.Z_of_digits ds
                                 else Num.Z_of_digits ds, r6)
                    end
                  else Some (0, r3)
              | EmptyString => Some (0, r3)
              end in
            match exp with
            | None => None
            | Some (ex, rest) =>
                Some (Num.of_decimal neg (Num.Z_of_digits (ip ++ fp))
                        (ex - Z.of_nat (length fp)), rest)
            end
        end
  end.

(** The outcome of parsing a prefix: a value and the rest of the
    text, a syntax error, or not enough fuel. *)
Inductive parsed (A : Type) :=
| Parsed (a : A) (rest : string)
| Malformed
| OutOfFuel.
Arguments Parsed {A} a rest.
Arguments Malformed {A}.
Arguments OutOfFuel {A}.

Definition keyword (k : string) (v : value) (s : string) : parsed value :=
  match Num.strip_prefix k s with
  | Some rest => Parsed v rest
  | None => Malformed
  end.

(** The object with the members of a parsed literal: a repeated key
    keeps its first place and its last value. *)
Definition object_of_members (ps : list (string * value)) : value :=
  Obj (fold_left (fun acc kv => set_property kv.1 kv.2 acc) ps []).

(** The text after its first character, when that is the byte [b]. *)
Definition after (b : Z) (s : string) : option string :=
  match s with
  | String c r => if Num.byte c =? b then Some r else None
  | EmptyString => None
  end.

Fixpoint parse_value (fuel : nat) (s : string) {struct fuel} : parsed value :=
  match fuel with
  | O => OutOfFuel
  | S f =>
      match skip_ws s with
      | EmptyString => Malformed
      | String c r =>
          let b := Num.byte c in
          if b =? 123 then
            match after 125 (skip_ws r) with
            | Some r' => Parsed (Obj []) r'
            | None =>
                match parse_members f r with
                | Parsed ps rest => Parsed (object_of_members ps) rest
                | Malformed => Malformed
                | OutOfFuel => OutOfFuel
                end
            end
          else if b =? 91 then
            match after 93 (skip_ws r) with
            | Some r' => Parsed (Arr []) r'
            | None =>
                match parse_elements f r with
                | Parsed vs rest => Parsed (Arr vs) rest
                | Malformed => Malformed
                | OutOfFuel => OutOfFuel
                end
            end
          else if b =? 34 then
            match string_literal r with
            | Some (t, rest) => Parsed (Str t) rest
            | None => Malformed
            end
          else if b =? 116 then keyword "true" (Bool true) (String c r)
          else if b =? 102 then keyword "false" (Bool false) (String c r)
          else if b =? 110 then keyword "null" Null (String c r)
          else
            match number_literal (String c r) with
            | Some (x, rest) => Parsed (Number x) rest
            | None => Malformed
            end
      end
  end

with parse_elements (fuel : nat) (s : string) {struct fuel}
  : parsed (list value) :=
  match fuel with
  | O => OutOfFuel
  | S f =>
      match parse_value f s with
      | Parsed v rest =>
          match after 44 (skip_ws rest) with
          | Some rest' =>
              match parse_elements f rest' with
              | Parsed vs rest'' => Parsed (v :: vs) rest''
              | Malformed => Malformed
              | OutOfFuel => OutOfFuel
              end
          | None =>
              match after 93 (skip_ws rest) with
              | Some rest' => Parsed [v] rest'
              | None => Malformed
              end
          end
      | Malformed => Malformed
      | OutOfFuel => OutOfFuel
      end
  end

with parse_members (fuel : nat) (s : string) {struct fuel}
  : parsed (list (string * value)) :=
  match fuel with
  | O => OutOfFuel
  | S f =>
      match after 34 (skip_ws s) with
      | Some r =>
          match string_literal r with
          | Some (k, rest) =>
              match after 58 (skip_ws rest) with
              | Some rest' =>
                  match parse_value f rest' with
                  | Parsed v rest'' =>
                      match after 44 (skip_ws rest'') with
                      | Some rest3 =>
                          match parse_members f rest3 with
                          | Parsed ps rest4 => Parsed ((k, v) :: ps) rest4
                          | Malformed => Malformed
                          | OutOfFuel => OutOfFuel
                          end
                      | None =>
                          match after 125 (skip_ws rest'') with
                          | Some rest3 => Parsed [(k, v)] rest3
                          | None => Malformed
                          end
                      end
                  | Malformed => Malformed
                  | OutOfFuel => OutOfFuel
                  end
              | None => Malformed
              end
          | None => Malformed
          end
      | None => Malformed
      end
  end.

(** [JSON.parse(s)]: of two nested calls of the parser one consumes a
    character, so twice the length of the text is enough fuel. *)
Definition parse (s : string) : result value :=
  match parse_value (S (2 * String.length s)) s with
  | Parsed v rest =>
      match skip_ws rest with
      | EmptyString => Return v
      | String _ _ => Throw SyntaxError
      end
  | Malformed | OutOfFuel => Throw SyntaxError
  end.

(** [JSON.stringify(v)] for a value that is not [undefined]. *)
Definition stringify (v : value) : string := default "undefined" (serialize v).

End JS.

(** ** The browser: [localStorage] and the console *)

Module Browser.

(** [window.localStorage].  Reading the property throws a
    [SecurityError] when storage is blocked; [setItem] throws a
    [QuotaExceededError], and stores nothing, when the store does not
    accept the pair.  [calls] lists the [setItem] calls made, oldest
    first. *)
Record localStorage := {
  available : bool;
  accepts : string -> string -> bool;
  items : gmap string string;
  calls : list (string * string);
}.

Definition getItem (ls : localStorage) (k : string) : JS.result (option string) :=
  if available ls then JS.Return (items ls !! k) else JS.Throw JS.SecurityError.

Definition setItem (ls : localStorage) (k v : string)
  : JS.result unit * localStorage :=
  if available ls then
    if accepts ls k v then
      (JS.Return tt,
       {| available := available ls; accepts := accepts ls;
          items := <[k := v]> (items ls); calls := calls ls ++ [(k, v)] |})
    else
      (JS.Throw JS.QuotaExceededError,
       {| available := available ls; accepts := accepts ls;
          items := items ls; calls := calls ls ++ [(k, v)] |})
  else (JS.Throw JS.SecurityError, ls).

(** The window: the store and what [console.error] has printed. *)
Record window := {
  storage : localStorage;
  console : list (string * JS.exn);
}.

Definition console_error (msg : string) (e : JS.exn) (w : window) : window :=
  {| storage := storage w; console := console w ++ [(msg, e)] |}.

End Browser.

(** ** storage.ts *)

Module Storage.
Import JS Browser.

Record AppData := {
  expenses : value;
  weeklyTarget : value;
  monthlyTarget : value;
}.

Definition STORAGE_KEY : string := "expenseTrackerData".

Definition defaults : AppData :=
  {| expenses := Arr [];
     weeklyTarget := Number (Num.of_Z 500);
     monthlyTarget := Number (Num.of_Z 2000) |}.

(** The [try] block of [loadData]. *)
Definition loadData_try (w : window) : result AppData :=
  let* serializedData := getItem (storage w) STORAGE_KEY in
  match serializedData with
  | None => Return defaults
  | Some text =>
      let* data := parse text in
      let* e := get data "expenses" in
      let* wt := get data "weeklyTarget" in
      let* mt := get data "monthlyTarget" in
      Return {| expenses := or_else e (Arr []);
                weeklyTarget := or_else wt (Number (Num.of_Z 500));
                monthlyTarget := or_else mt (Number (Num.of_Z 2000)) |}
  end.

Definition loadData (w : window) : AppData * window :=
  match loadData_try w with
  | Return data => (data, w)
  | Throw error =>
      (defaults, console_error "Could not load data from localStorage" error w)
  end.

(** The object literal that [saveData] receives. *)
Definition object_of (data : AppData) : value :=
  Obj [("expenses", expenses data);
       ("weeklyTarget", weeklyTarget data);
       ("monthlyTarget", monthlyTarget data)].

Definition saveData (data : AppData) (w : window) : window :=
  let serializedData := stringify (object_of data) in
  match setItem (storage w) STORAGE_KEY serializedData with
  | (Return _, ls) => {| storage := ls; console := console w |}
  | (Throw error, ls) =>
      console_error "Could not save data to localStorage" error
        {| storage := ls; console := console w |}
  end.

End Storage.

(** ** [Date]

    A time value is a number of milliseconds since the epoch (an
    integer, exactly representable), or [None] for an invalid date.
    Local time is UTC shifted by the fixed offset [tz] of the zone (a
    zone without daylight-saving turns, as the one the rupee amounts
    point to). *)

Module JSDate.

Definition msPerDay : Z := 86400000.

Definition Day (t : Z) : Z := t / msPerDay.
Definition TimeWithinDay (t : Z) : Z := t mod msPerDay.

(** 0 is Sunday; the epoch was a Thursday. *)
Definition WeekDay (t : Z) : Z := (Day t + 4) mod 7.

(** The day number of a date of the proleptic Gregorian calendar,
    months counted from 0, and back. *)
Definition days_from_civil (y m d : Z) : Z :=
  let y' := if m <? 2 then y - 1 else y in
  let era := y' / 400 in
  let yoe := y' mod 400 in
  let mp := if m <? 2 then m + 10 else m - 2 in
  let doy := (153 * mp + 2) / 5 + d - 1 in
  let doe := yoe * 365 + yoe / 4 - yoe / 100 + doy in
  era * 146097 + doe - 719468.

Definition civil_from_days (z : Z) : Z * Z * Z :=
  let z' := z + 719468 in
  let era := z' / 146097 in
  let doe := z' mod 146097 in
  let yoe := (doe - doe / 1460 + doe / 36524 - doe / 146096) / 365 in
  let doy := doe - (365 * yoe + yoe / 4 - yoe / 100) in
  let mp := (5 * doy + 2) / 153 in
  let d := doy - (153 * mp + 2) / 5 + 1 in
  let m := if mp <? 10 then mp + 2 else mp - 10 in
  let y := yoe + era * 400 + (if m <? 2 then 1 else 0) in
  (y, m, d).

Definition YearFromTime (t : Z) : Z := (civil_from_days (Day t)).1.1.
Definition MonthFromTime (t : Z) : Z := (civil_from_days (Day t)).1.2.
Definition DateFromTime (t : Z) : Z := (civil_from_days (Day t)).2.

Definition MakeTime (h m s ms : Z) : Z := ((h * 60 + m) * 60 + s) * 1000 + ms.

Definition MakeDay (year month date : Z) : Z :=
  days_from_civil (year + month / 12) (month mod 12) 1 + date - 1.

Definition MakeDate (day time : Z) : Z := day * msPerDay + time.

Definition TimeClip (t : Z) : option Z :=
  if Z.abs t <=? 8640000000000000 then Some t else None.

Section Zone.
Variable tz : Z.

Definition LocalTime (t : Z) : Z := t + tz.
Definition UTC (t : Z) : Z := t - tz.

(** [d.getDay()], [d.getDate()], [d.getMonth()], [d.getFullYear()]
    on a valid date. *)
Definition getDay (t : Z) : Z := WeekDay (LocalTime t).
Definition getDate (t : Z) : Z := DateFromTime (LocalTime t).
Definition getMonth (t : Z) : Z := MonthFromTime (LocalTime t).
Definition getFullYear (t : Z) : Z := YearFromTime (LocalTime t).

(** [d.setDate(dt)]: the new time value of [d]. *)
Definition setDate (t dt : Z) : option Z :=
  let l := LocalTime t in
  TimeClip (UTC (MakeDate (MakeDay (YearFromTime l) (MonthFromTime l) dt)
                          (TimeWithinDay l))).

(** [d.setHours(0, 0, 0, 0)]. *)
Definition setHours_0 (d : option Z) : option Z :=
  match d with
  | Some t => TimeClip (UTC (MakeDate (Day (LocalTime t)) (MakeTime 0 0 0 0)))
  | None => None
  end.

(** [new Date(year, month, 1)]: a year from 0 to 99 stands for
    1900 + year. *)
Definition of_year_month (year month : Z) : option Z :=
  let yr := if (0 <=? year) && (year <=? 99) then 1900 + year else year in
  TimeClip (UTC (MakeDate (MakeDay yr month 1) (MakeTime 0 0 0 0))).

(** *** Date strings

    The forms the application builds: [YYYY-MM-DD], read as UTC
    midnight, and [YYYY-MM-DDTHH:mm:ss], read as local time.
    The date must exist in the calendar.  Any other text is an
    invalid date here (engines differ on such text, and on a day like
    02-30). *)

Definition two_digits (a b : ascii) : option Z :=
  match Num.digit a, Num.digit b with
  | Some x, Some y => Some (10 * x + y)
  | _, _ => None
  end.

Definition days_in_month (y m : Z) : Z :=
  MakeDay y (m + 1) 1 - MakeDay y m 1.

(** The day number of [YYYY-MM-DD] and the rest of the text. *)
Definition parse_date (s : string) : option (Z * string) :=
  match s with
  | String y1 (String y2 (String y3 (String y4 (String h1
      (String m1 (String m2 (String h2 (String d1 (String d2 rest))))))))) =>
      if (Num.byte h1 =? 45) && (Num.byte h2 =? 45) then
        match two_digits y1 y2, two_digits y3 y4, two_digits m1 m2,
              two_digits d1 d2 with
        | Some yh, Some yl, Some m, Some d =>
            let y := 100 * yh + yl in
            if (1 <=? m) && (m <=? 12) && (1 <=? d)
               && (d <=? days_in_month y (m - 1))
            then Some (MakeDay y (m - 1) d, rest)
            else None
        | _, _, _, _ => None
        end
      else None
  | _ => None
  end.

(** The time within the day of [HH:mm:ss], at the end of the text. *)
Definition parse_time (s : string) : option Z :=
  match s with
  | String h1 (String h2 (String c1 (String m1 (String m2 (String c2
      (String s1 (String s2 EmptyString))))))) =>
      if (Num.byte c1 =? 58) && (Num.byte c2 =? 58) then
        match two_digits h1 h2, two_digits m1 m2, two_digits s1 s2 with
        | Some h, Some m, Some sec =>
            if ((h <=? 23) && (m <=? 59) && (sec <=? 59))
               || ((h =? 24) && (m =? 0) && (sec =? 0))
            then Some (MakeTime h m sec 0)
            else None
        | _, _, _ => None
        end
      else None
  | _ => None
  end.

(** [new Date(text)]. *)
Definition of_string (s : string) : option Z :=
  match parse_date s with
  | Some (day, EmptyString) => TimeClip (MakeDate day 0)
  | Some (day, String c rest) =>
      if Num.byte c =? 84 then
        match parse_time rest with
        | Some time => TimeClip (UTC (MakeDate day time))
        | None => None
        end
      else None
  | None => None
  end.

(** [a >= b] on two dates: false when either is invalid. *)
Definition ge (a b : option Z) : bool :=
  match a, b with
  | Some x, Some y => y <=? x
  | _, _ => false
  end.

End Zone.

End JSDate.

(** ** [Array.prototype.sort]

    The sort is stable, and a comparator result of [NaN] counts as 0.
    For a consistent comparator every conforming engine returns the
    list below; for an inconsistent one the order is left to the
    engine, and this is one such order. *)

Module JSArray.
Section Sort.
Context {A : Type}.
(** [comparefn a b]: [None] stands for [NaN]. *)
Variable comparefn : A -> A -> option Z.

Definition SortCompare (x y : A) : Z := default 0 (comparefn x y).

(** [x] goes in front of the first element it must precede. *)
Fixpoint insert (x : A) (l : list A) : list A :=
  match l with
  | [] => [x]
  | y :: l' =>
      if SortCompare x y <? 0 then x :: y :: l' else y :: insert x l'
  end.

Definition sort (l : list A) : list A :=
  fold_left (fun acc x => insert x acc) l [].
End Sort.
End JSArray.

(** ** The [App] component *)

Module App.
Import Num.

Definition CATEGORIES : list string :=
  ["Food"; "Travel"; "Dress"; "Entertainment"; "Other"]%string.

Record Expense := {
  id : number;
  amount : number;
  category : string;
  date : string;
}.

Inductive Page := SummaryPage | AddExpensePage | HistoryPage | SettingsPage.

(** The four [useState] cells of [App]. *)
Record State := {
  expenses : list Expense;
  weeklyTarget : number;
  monthlyTarget : number;
  activePage : Page;
}.

Definition initial : State :=
  {| expenses := []; weeklyTarget := pos_zero; monthlyTarget := pos_zero;
     activePage := SummaryPage |}.

(** The form of [AddExpensePage]. *)
Record NewExpense := {
  new_amount : string;
  new_category : string;
  new_date : string;
}.

Definition setExpenses (f : list Expense -> list Expense) (st : State) : State :=
  {| expenses := f (expenses st); weeklyTarget := weeklyTarget st;
     monthlyTarget := monthlyTarget st; activePage := activePage st |}.

Definition setWeeklyTarget (x : number) (st : State) : State :=
  {| expenses := expenses st; weeklyTarget := x;
     monthlyTarget := monthlyTarget st; activePage := activePage st |}.

Definition setMonthlyTarget (x : number) (st : State) : State :=
  {| expenses := expenses st; weeklyTarget := weeklyTarget st;
     monthlyTarget := x; activePage := activePage st |}.

Definition setActivePage (p : Page) (st : State) : State :=
  {| expenses := expenses st; weeklyTarget := weeklyTarget st;
     monthlyTarget := monthlyTarget st; activePage := p |}.

Definition handleDeleteExpense (id0 : number) (st : State) : State :=
  setExpenses (List.filter (fun exp => negb (strict_eq (id exp) id0))) st.

(** [handleWeeklyChange] and [handleMonthlyChange] of [SettingsPage]. *)
Definition handleWeeklyChange (value : string) (st : State) : State :=
  setWeeklyTarget (or_else (parseFloat value) pos_zero) st.

Definition handleMonthlyChange (value : string) (st : State) : State :=
  setMonthlyTarget (or_else (parseFloat value) pos_zero) st.

(** *** Persistence effect *)

Definition object_of_expense (e : Expense) : JS.value :=
  JS.Obj [("id", JS.Number (id e)); ("amount", JS.Number (amount e));
          ("category", JS.Str (category e)); ("date", JS.Str (date e))]%string.

(** [{ expenses, weeklyTarget, monthlyTarget }]. *)
Definition data_of (st : State) : Storage.AppData :=
  {| Storage.expenses := JS.Arr (map object_of_expense (expenses st));
     Storage.weeklyTarget := JS.Number (weeklyTarget st);
     Storage.monthlyTarget := JS.Number (monthlyTarget st) |}.

(** The guard of the saving effect. *)
Definition not_initial (st : State) : bool :=
  (0 <? length (expenses st))%nat
  || gt (weeklyTarget st) pos_zero || gt (monthlyTarget st) pos_zero.

(** The body of the saving effect. *)
Definition save_effect (st : State) (w : Browser.window) : Browser.window :=
  if not_initial st then Storage.saveData (data_of st) w else w.

(** [Object.is] on numbers. *)
Definition Object_is (a b : number) : bool := PrimFloat.Leibniz.eqb a b.

(** Whether a dependency of the saving effect differs between two
    renders; [fresh] tells that [setExpenses] installed a new
    array. *)
Definition deps_changed (fresh : bool) (old new : State) : bool :=
  fresh
  || negb (Object_is (weeklyTarget old) (weeklyTarget new))
  || negb (Object_is (monthlyTarget old) (monthlyTarget new)).

(** *** Mount

    The first render shows [initial]; the loading effect reads the
    store, the saving effect sees [initial], and the render that
    follows runs the saving effect on what was loaded.  The state
    holds typed expenses: [None] when the stored record has another
    shape. *)

Definition expense_of_object (v : JS.value) : option Expense :=
  match v with
  | JS.Obj props =>
      match JS.own_property "id" props, JS.own_property "amount" props,
            JS.own_property "category" props, JS.own_property "date" props with
      | JS.Number i, JS.Number a, JS.Str c, JS.Str d =>
          Some {| id := i; amount := a; category := c; date := d |}
      | _, _, _, _ => None
      end
  | _ => None
  end.

Definition state_of_data (data : Storage.AppData) : option State :=
  match Storage.expenses data, Storage.weeklyTarget data,
        Storage.monthlyTarget data with
  | JS.Arr items, JS.Number wt, JS.Number mt =>
      match mapM expense_of_object items with
      | Some l =>
          Some {| expenses := l; weeklyTarget := wt; monthlyTarget := mt;
                  activePage := SummaryPage |}
      | None => None
      end
  | _, _, _ => None
  end.

Definition mount (w : Browser.window) : option (State * Browser.window) :=
  let '(data, w1) := Storage.loadData w in
  let w2 := save_effect initial w1 in
  match state_of_data data with
  | Some st =>
      Some (st, if deps_changed true initial st then save_effect st w2 else w2)
  | None => None
  end.

(** [CATEGORIES.reduce((acc, cat) => ({...acc, [cat]: 0}), {})].
    A key is one of the five categories; a name that a plain object
    inherits (such as "constructor") would pass the guard of the
    loop below too and receive a property that is not a number: it
    is no bucket and stays outside this map. *)
Definition zero_totals : gmap string number :=
  fold_left (fun acc cat => <[cat := pos_zero]> acc) CATEGORIES ∅.

Record Aggregates := {
  weeklySpent : number;
  monthlySpent : number;
  categoryTotals : gmap string number;
}.

Section Zone.
Variable tz : Z.

(** [new Date(e.date).getTime()]. *)
Definition getTime (e : Expense) : option Z := JSDate.of_string tz (date e).

(** [(a, b) => new Date(b.date).getTime() - new Date(a.date).getTime()]. *)
Definition by_date_desc (a b : Expense) : option Z :=
  match getTime b, getTime a with
  | Some tb, Some ta => Some (tb - ta)
  | _, _ => None
  end.

(** [handleAddExpense]; [now] is the reading of [Date.now()]. *)
Definition handleAddExpense (now : Z) (newExpense : NewExpense) (st : State)
  : State :=
  setActivePage HistoryPage
    (setExpenses
       (fun prev =>
          JSArray.sort by_date_desc
            (prev ++ [{| id := of_Z now;
                         amount := parseFloat (new_amount newExpense);
                         category := new_category newExpense;
                         date := new_date newExpense |}]))
       st).

(** [handleSubmit] of [AddExpensePage]: [None] when it returns
    before calling [onAddExpense]. *)
Definition handleSubmit (now : Z) (newExpense : NewExpense) (st : State)
  : option State :=
  if String.eqb (new_amount newExpense) ""
     || isNaN (parseFloat (new_amount newExpense))
  then None
  else Some (handleAddExpense now newExpense st).

(** What the user does. *)
Inductive event :=
| Submit (newExpense : NewExpense) (now : Z)
| Delete (id0 : number)
| WeeklyChange (value : string)
| MonthlyChange (value : string)
| Navigate (p : Page).

(** The handler of an event: the next state, and whether it
    installed a new [expenses] array. *)
Definition handle (ev : event) (st : State) : State * bool :=
  match ev with
  | Submit newExpense now =>
      match handleSubmit now newExpense st with
      | Some st' => (st', true)
      | None => (st, false)
      end
  | Delete id0 => (handleDeleteExpense id0 st, true)
  | WeeklyChange value => (handleWeeklyChange value st, false)
  | MonthlyChange value => (handleMonthlyChange value st, false)
  | Navigate p => (setActivePage p st, false)
  end.

(** One event: the handler, the render, and the saving effect when
    one of its dependencies changed. *)
Definition dispatch (ev : event) (sw : State * Browser.window)
  : State * Browser.window :=
  let '(st, w) := sw in
  let '(st', fresh) := handle ev st in
  (st', if deps_changed fresh st st' then save_effect st' w else w).

Definition run (evs : list event) (sw : State * Browser.window)
  : State * Browser.window :=
  fold_left (fun acc ev => dispatch ev acc) evs sw.

(** *** Aggregates *)

(** [getStartOfWeek(date)]. *)
Definition getStartOfWeek (date0 : Z) : option Z :=
  let day := JSDate.getDay tz date0 in
  let diff := JSDate.getDate tz date0 - day + (if day =? 0 then -6 else 1) in
  JSDate.setDate tz date0 diff.

Definition startOfWeek (now : Z) : option Z :=
  JSDate.setHours_0 tz (getStartOfWeek now).

Definition startOfMonth (now : Z) : option Z :=
  JSDate.setHours_0 tz
    (JSDate.of_year_month tz (JSDate.getFullYear tz now) (JSDate.getMonth tz now)).

(** [new Date(expense.date + 'T00:00:00')]. *)
Definition expenseDate (e : Expense) : option Z :=
  JSDate.of_string tz (date e +:+ "T00:00:00").

(** The body of [expenses.forEach]. *)
Definition account (sow som : option Z) (acc : Aggregates) (expense : Expense)
  : Aggregates :=
  let d := expenseDate expense in
  let '(monthly, catTotals) :=
    if JSDate.ge d som then
      ((monthlySpent acc + amount expense)%float,
       match categoryTotals acc !! category expense with
       | Some x => <[category expense := (x + amount expense)%float]>
                     (categoryTotals acc)
       | None => categoryTotals acc
       end)
    else (monthlySpent acc, categoryTotals acc) in
  let weekly :=
    if JSDate.ge d sow then (weeklySpent acc + amount expense)%float
    else weeklySpent acc in
  {| weeklySpent := weekly; monthlySpent := monthly;
     categoryTotals := catTotals |}.

(** The [useMemo] of [App], at the instant [now] of [new Date()]. *)
Definition aggregates (now : Z) (l : list Expense) : Aggregates :=
  fold_left (account (startOfWeek now) (startOfMonth now)) l
    {| weeklySpent := pos_zero; monthlySpent := pos_zero;
       categoryTotals := zero_totals |}.

End Zone.
End App.

(** * Notions used by the statements *)

(** What a parsed record holds under a key: [Undefined] when the key is
    missing, or when the record is no object at all. *)
Definition stored_field (data : JS.value) (k : string) : JS.value :=
  match data with
  | JS.Obj props => JS.own_property k props
  | _ => JS.Undefined
  end.

(** The field-by-field fallback: the default for a missing or falsy
    field, the stored value otherwise. *)
Definition field_or_default (data : JS.value) (k : string) (d : JS.value)
  : JS.value :=
  if JS.truthy (stored_field data k) then stored_field data k else d.

(** A window whose store holds [text] under the key of the application
    and accepts every write. *)
Definition window_with (text : option string) : Browser.window :=
  {| Browser.storage :=
       {| Browser.available := true;
          Browser.accepts := fun _ _ => true;
          Browser.items :=
            match text with
            | Some t => {[ Storage.STORAGE_KEY := t ]}
            | None => ∅
            end;
          Browser.calls := [] |};
     Browser.console := [] |}.

(** A window whose store is full: every write is refused. *)
Definition full_window (text : string) : Browser.window :=
  {| Browser.storage :=
       {| Browser.available := true;
          Browser.accepts := fun _ _ => false;
          Browser.items := {[ Storage.STORAGE_KEY := text ]};
          Browser.calls := [] |};
     Browser.console := [] |}.

(** A window whose store cannot be reached. *)
Definition blocked_window : Browser.window :=
  {| Browser.storage :=
       {| Browser.available := false;
          Browser.accepts := fun _ _ => true;
          Browser.items := ∅;
          Browser.calls := [] |};
     Browser.console := [] |}.

(** The stored record of the loading scenario: one expense, a weekly
    target, no monthly target. *)
Definition quoted (s : string) : string := JS.dquote +:+ s +:+ JS.dquote.

Definition scenario_text : string :=
  "{" +:+ quoted "expenses" +:+ ":[{" +:+ quoted "id" +:+ ":1,"
  +:+ quoted "amount" +:+ ":100," +:+ quoted "category" +:+ ":"
  +:+ quoted "Food" +:+ "," +:+ quoted "date" +:+ ":" +:+ quoted "2024-07-01"
  +:+ "}], " +:+ quoted "weeklyTarget" +:+ ":500}".

Definition scenario_expense : JS.value :=
  JS.Obj [("id", JS.Number (Num.of_Z 1)); ("amount", JS.Number (Num.of_Z 100));
          ("category", JS.Str "Food"); ("date", JS.Str "2024-07-01")].

Definition scenario_record : JS.value :=
  JS.Obj [("expenses", JS.Arr [scenario_expense]);
          ("weeklyTarget", JS.Number (Num.of_Z 500))].

(** How a loaded field relates to the stored one: the default when the
    stored field is missing, the default when it is falsy, the stored
    value when it is truthy. *)
Definition field_rule (stored loaded dflt : JS.value) : Prop :=
  (stored = JS.Undefined -> loaded = dflt)
  /\ (JS.truthy stored = false -> loaded = dflt)
  /\ (JS.truthy stored = true -> loaded = stored).

(** An expense as [handleAddExpense] builds it from the form. *)
Definition expense (n : Z) (amount_text category date : string) : App.Expense :=
  {| App.id := Num.of_Z n; App.amount := Num.parseFloat amount_text;
     App.category := category; App.date := date |}.

Definition state_with (l : list App.Expense) (wt mt : Num.number) : App.State :=
  {| App.expenses := l; App.weeklyTarget := wt; App.monthlyTarget := mt;
     App.activePage := App.HistoryPage |}.





Definition submit (amount_text category date : string) (now : Z) : App.event :=
  App.Submit {| App.new_amount := amount_text; App.new_category := category;
                App.new_date := date |} now.

(** The sum [((0 + a1) + a2) + ...] that a [+=] loop computes. *)
Definition fsum (l : list Num.number) : Num.number :=
  fold_left PrimFloat.add l Num.pos_zero.

(** The date of an expense, read at local midnight, is on or after
    [start]. *)
Definition on_or_after (tz : Z) (start : option Z) (e : App.Expense) : bool :=
  JSDate.ge (App.expenseDate tz e) start.

Definition is_category (c : string) : bool := existsb (String.eqb c) App.CATEGORIES.

Definition in_category (tz : Z) (start : option Z) (c : string) (e : App.Expense)
  : bool :=
  on_or_after tz start e && String.eqb (App.category e) c.

Definition outside_categories (tz : Z) (start : option Z) (e : App.Expense)
  : bool :=
  on_or_after tz start e && negb (is_category (App.category e)).

(** The amounts of the expenses in a window, in list order; and those
    of one category. *)
Definition amounts_from (tz : Z) (start : option Z) (l : list App.Expense)
  : list Num.number :=
  map App.amount (List.filter (on_or_after tz start) l).

Definition amounts_of (tz : Z) (start : option Z) (c : string)
    (l : list App.Expense) : list Num.number :=
  map App.amount (List.filter (in_category tz start c) l).

(** The amounts of the expenses in a window whose category is none of
    the five. *)
Definition amounts_outside (tz : Z) (start : option Z) (l : list App.Expense)
  : list Num.number :=
  map App.amount (List.filter (outside_categories tz start) l).

(** The five totals added up in the order [order], as
    [order.reduce((sum, c) => sum + categoryTotals[c], 0)] does. *)
Definition sum_of_totals (order : list string) (totals : gmap string Num.number)
  : Num.number :=
  fsum (map (fun c => default Num.NaN (totals !! c)) order).

(** Three expenses of July 2024, all in the fixed categories. *)
Definition tenths : list App.Expense :=
  [expense 1 "0.1" "Food" "2024-07-08";
   expense 2 "0.2" "Travel" "2024-07-09";
   expense 3 "0.4" "Food" "2024-07-10"].

(** *** Whole numbers *)

(** [n * 2^j], for [0 <= j]. *)
Definition shiftp (n : positive) (j : Z) : positive :=
  match j with Zpos d => Pos.iter xO n d | _ => n end.

(** The binary64 representation of a positive integer below [2^53]:
    the mantissa is shifted to 53 digits. *)
Definition canon (n : positive) : spec_float :=
  let dn := Zpos (digits2_pos n) in
  S754_finite false (shiftp n (53 - dn)) (dn - 53).

(** The integer part of a positive number, 0 for the other numbers. *)
Definition to_Z (x : Num.number) : Z :=
  match Prim2SF x with
  | S754_finite false m e =>
      if 0 <=? e then Zpos m * 2 ^ e else Zpos m / 2 ^ (- e)
  | _ => 0
  end.

(** [x] is a whole number, zero or positive. *)
Definition whole (x : Num.number) : Prop := x = Num.of_Z (to_Z x).

Definition Zsum (l : list Z) : Z := fold_right Z.add 0 l.

(** The whole-number value of the amounts of a list. *)
Definition whole_total (l : list App.Expense) : Z :=
  Zsum (map (fun e => to_Z (App.amount e)) l).

(** Three expenses of July 2024 in whole rupees. *)
Definition rupees : list App.Expense :=
  [expense 1 "100" "Food" "2024-07-07";
   expense 2 "12" "Travel" "2024-07-10";
   expense 3 "7" "Food" "2024-07-08"].

(** *** Writes *)

(** The text that [saveData] writes for a state. *)
Definition serialized (st : App.State) : string :=
  JS.stringify (Storage.object_of (App.data_of st)).

(** The record in the store. *)
Definition persisted (w : Browser.window) : option string :=
  Browser.items (Browser.storage w) !! Storage.STORAGE_KEY.

(** The states after the events that changed a dependency of the saving
    effect, in the order of the events. *)
Fixpoint changed_states (tz : Z) (evs : list App.event) (st : App.State)
  : list App.State :=
  match evs with
  | [] => []
  | ev :: evs' =>
      let '(st', fresh) := App.handle tz ev st in
      (if App.deps_changed fresh st st' then [st'] else [])
      ++ changed_states tz evs' st'
  end.

(** Each of those states has an expense or a positive target. *)
Definition always_saved (tz : Z) (evs : list App.event) (st : App.State) : Prop :=
  Forall (fun s => App.not_initial s = true) (changed_states tz evs st).

(** One expense and both targets at 0. *)
Definition last_expense : App.State :=
  state_with [expense 1 "100" "Food" "2024-07-01"] Num.pos_zero Num.pos_zero.

(** What enough fuel gives: an answer, and a shorter rest. *)
Definition consumes {A} (r : JS.parsed A) (s : string) : Prop :=
  match r with
  | JS.Parsed _ rest => (String.length rest < String.length s)%nat
  | JS.Malformed => True
  | JS.OutOfFuel => False
  end.

(** * Properties *)

(** ** The JSON parser has enough fuel *)

Lemma skip_ws_length (s : string) : (String.length (JS.skip_ws s) <= String.length s)%nat.
Proof.
  induction s as [| c s IH]; simpl; [lia |].
  destruct (_ || _); simpl; lia.
Qed.

Lemma digits_length (s : string) ds r :
  Num.digits s = (ds, r) -> (String.length r + List.length ds = String.length s)%nat.
Proof.
  revert ds r. induction s as [| c s IH]; intros ds r; simpl.
  - intros H. inversion H. reflexivity.
  - destruct (Num.digit c).
    + destruct (Num.digits s) as [ds' r'] eqn:E. intros H. inversion H; subst.
      specialize (IH ds' r eq_refl). simpl. lia.
    + intros H. inversion H. simpl. lia.
Qed.

Lemma strip_prefix_length (p s rest : string) :
  Num.strip_prefix p s = Some rest ->
  (String.length rest + String.length p = String.length s)%nat.
Proof.
  revert s. induction p as [| a p IH]; intros s; simpl.
  - intros H. inversion H. lia.
  - destruct s as [| b s]; [discriminate |].
    destruct (Ascii.eqb a b); [| discriminate].
    intros H. apply IH in H. simpl. lia.
Qed.

Lemma string_body_length_bounded (n : nat) :
  forall s l rest,
    (String.length s <= n)%nat ->
    JS.string_body s = Some (l, rest) -> (String.length rest < String.length s)%nat.
Proof.
  induction n as [| n IH]; intros s l rest Hn.
  - destruct s; [discriminate | simpl in Hn; lia].
  - destruct s as [| c r]; simpl; [discriminate |]. simpl in Hn.
    destruct (Num.byte c =? 34); [intros H; inversion H; subst; lia |].
    destruct (Num.byte c =? 92).
    + destruct r as [| e r']; [discriminate |].
      destruct (Num.byte e =? 117).
      * destruct r' as [| h1 [| h2 [| h3 [| h4 r'']]]]; try discriminate.
        destruct (JS.hex4 h1 h2 h3 h4); [| discriminate].
        destruct (JS.string_body r'') as [[l' rest'] |] eqn:E; [| discriminate].
        intros H. inversion H; subst.
        apply IH in E; simpl in *; lia.
      * destruct (JS.simple_escape e); [| discriminate].
        destruct (JS.string_body r') as [[l' rest'] |] eqn:E; [| discriminate].
        intros H. inversion H; subst. apply IH in E; simpl in *; lia.
    + destruct (Num.byte c <? 32); [discriminate |].
      destruct (JS.string_body r) as [[l' rest'] |] eqn:E; [| discriminate].
      intros H. inversion H; subst. apply IH in E; simpl in *; lia.
Qed.

Lemma string_literal_length (s t rest : string) :
  JS.string_literal s = Some (t, rest) -> (String.length rest < String.length s)%nat.
Proof.
  unfold JS.string_literal.
  destruct (JS.string_body s) as [[l r] |] eqn:E; [| discriminate].
  intros H. inversion H; subst.
  exact (string_body_length_bounded _ s l rest (Nat.le_refl _) E).
Qed.

Lemma number_literal_length (s : string) x rest :
  JS.number_literal s = Some (x, rest) -> (String.length rest < String.length s)%nat.
Proof.
  unfold JS.number_literal.
  set (p := match s with String "-" r => (true, r) | _ => (false, s) end).
  assert (Hp : (String.length p.2 <= String.length s)%nat).
  { subst p. destruct s as [| c r]; simpl; [lia |].
    destruct (Ascii.eqb_spec c "-") as [-> | Hne]; simpl; [lia |].
    destruct c as [[] [] [] [] [] [] [] []]; simpl; try lia. }
  destruct p as [neg s1]. simpl in Hp.
  destruct (Num.digits s1) as [ip r1] eqn:Hip.
  apply digits_length in Hip.
  destruct ip as [| d ip']; [discriminate |].
  destruct ((d =? 0) && negb (length ip' =? 0)%nat); [discriminate |].
  simpl in Hip.
  set (frac := match r1 with
               | String "." r2 => _
               | _ => _
               end).
  assert (Hfrac : forall fp r3, frac = Some (fp, r3) ->
                                (String.length r3 <= String.length r1)%nat).
  { subst frac. intros fp r3. destruct r1 as [| c r2]; [intros H; inversion H; subst; simpl; lia |].
    destruct (Ascii.eqb_spec c ".") as [-> | Hne].
    - destruct (Num.digits r2) as [fp' r3'] eqn:Hfp. apply digits_length in Hfp.
      destruct fp'; [discriminate |]. intros H. inversion H; subst. simpl in *. lia.
    - destruct c as [[] [] [] [] [] [] [] []];
        try (exfalso; apply Hne; reflexivity);
        intros H; inversion H; simpl; lia. }
  destruct frac as [[fp r3] |]; [| discriminate].
  specialize (Hfrac fp r3 eq_refl).
  set (exp := match r3 with String c r4 => _ | EmptyString => _ end).
  assert (Hexp : forall ex r, exp = Some (ex, r) ->
                              (String.length r <= String.length r3)%nat).
  { subst exp. intros ex r. destruct r3 as [| c r4]; [intros H; inversion H; subst; simpl; lia |].
    destruct (Ascii.eqb c "e" || Ascii.eqb c "E").
    - set (q := match r4 with
                | String "-" r5 => (true, r5)
                | String "+" r5 => (false, r5)
                | _ => (false, r4)
                end).
      assert (Hq : (String.length q.2 <= String.length r4)%nat).
      { subst q. destruct r4 as [| c' r5]; simpl; [lia |].
        destruct c' as [[] [] [] [] [] [] [] []]; simpl; lia. }
      destruct q as [eneg r5]. simpl in Hq.
      destruct (Num.digits r5) as [ds r6] eqn:Hds. apply digits_length in Hds.
      destruct ds; [discriminate |]. intros H. inversion H; subst. simpl in *. lia.
    - intros H. inversion H; subst. simpl. lia. }
  destruct exp as [[ex r] |]; [| discriminate].
  specialize (Hexp ex r eq_refl).
  intros H. inversion H; subst. lia.
Qed.

Lemma after_length (b : Z) (s r : string) :
  JS.after b s = Some r -> S (String.length r) = String.length s.
Proof.
  destruct s as [| c s']; simpl; [discriminate |].
  destruct (Num.byte c =? b); [| discriminate].
  intros H. inversion H. reflexivity.
Qed.

Lemma keyword_length (k : string) (v : JS.value) (s : string) (u : JS.value)
    (rest : string) :
  k <> EmptyString ->
  JS.keyword k v s = JS.Parsed u rest -> (String.length rest < String.length s)%nat.
Proof.
  intros Hk. unfold JS.keyword.
  destruct (Num.strip_prefix k s) as [r |] eqn:E; [| discriminate].
  intros H. inversion H; subst. apply strip_prefix_length in E.
  destruct k; [contradiction | simpl in E; lia].
Qed.

Lemma parse_fuel (fuel : nat) :
  (forall s, (2 * String.length s < fuel)%nat -> consumes (JS.parse_value fuel s) s)
  /\ (forall s, (2 * String.length s + 1 < fuel)%nat ->
                consumes (JS.parse_elements fuel s) s)
  /\ (forall s, (2 * String.length s + 1 < fuel)%nat ->
                consumes (JS.parse_members fuel s) s).
Proof.
  induction fuel as [| f (IHv & IHe & IHm)].
  - repeat split; intros s Hs; lia.
  - split; [| split]; intros s Hs; simpl.
    + pose proof (skip_ws_length s) as Hws.
      destruct (JS.skip_ws s) as [| c r] eqn:Es; simpl; [exact I |].
      simpl in Hws.
      destruct (Num.byte c =? 123).
      { pose proof (skip_ws_length r) as Hr.
        destruct (JS.after 125 (JS.skip_ws r)) as [r' |] eqn:Ea.
        - apply after_length in Ea. simpl. lia.
        - specialize (IHm r ltac:(lia)).
          destruct (JS.parse_members f r); simpl in *; try tauto. lia. }
      destruct (Num.byte c =? 91).
      { pose proof (skip_ws_length r) as Hr.
        destruct (JS.after 93 (JS.skip_ws r)) as [r' |] eqn:Ea.
        - apply after_length in Ea. simpl. lia.
        - specialize (IHe r ltac:(lia)).
          destruct (JS.parse_elements f r); simpl in *; try tauto. lia. }
      destruct (Num.byte c =? 34).
      { destruct (JS.string_literal r) as [[t rest] |] eqn:El; simpl; [| exact I].
        apply string_literal_length in El. lia. }
      assert (Hkw : forall k v, k <> EmptyString ->
                                consumes (JS.keyword k v (String c r)) s).
      { intros k v Hk. destruct (JS.keyword k v (String c r)) eqn:Ek; simpl; trivial.
        - apply keyword_length in Ek; [simpl in Ek; lia | exact Hk].
        - unfold JS.keyword in Ek. destruct (Num.strip_prefix k (String c r));
            discriminate. }
      destruct (Num.byte c =? 116); [apply Hkw; discriminate |].
      destruct (Num.byte c =? 102); [apply Hkw; discriminate |].
      destruct (Num.byte c =? 110); [apply Hkw; discriminate |].
      destruct (JS.number_literal (String c r)) as [[x rest] |] eqn:En; simpl;
        [| exact I].
      apply number_literal_length in En. simpl in En. lia.
    + specialize (IHv s ltac:(lia)).
      destruct (JS.parse_value f s) as [v rest | |]; simpl in *; try tauto.
      pose proof (skip_ws_length rest) as Hws.
      destruct (JS.after 44 (JS.skip_ws rest)) as [rest' |] eqn:Ea.
      * apply after_length in Ea. specialize (IHe rest' ltac:(lia)).
        destruct (JS.parse_elements f rest'); simpl in *; try tauto. lia.
      * destruct (JS.after 93 (JS.skip_ws rest)) as [rest' |] eqn:Eb; simpl;
          [| exact I].
        apply after_length in Eb. lia.
    + pose proof (skip_ws_length s) as Hws.
      destruct (JS.after 34 (JS.skip_ws s)) as [r |] eqn:Ea; simpl; [| exact I].
      apply after_length in Ea.
      destruct (JS.string_literal r) as [[k rest] |] eqn:El; simpl; [| exact I].
      apply string_literal_length in El.
      pose proof (skip_ws_length rest) as Hws'.
      destruct (JS.after 58 (JS.skip_ws rest)) as [rest' |] eqn:Ec; simpl;
        [| exact I].
      apply after_length in Ec.
      specialize (IHv rest' ltac:(lia)).
      destruct (JS.parse_value f rest') as [v rest'' | |]; simpl in *; try tauto.
      pose proof (skip_ws_length rest'') as Hws''.
      destruct (JS.after 44 (JS.skip_ws rest'')) as [rest3 |] eqn:Ed.
      * apply after_length in Ed. specialize (IHm rest3 ltac:(lia)).
        destruct (JS.parse_members f rest3); simpl in *; try tauto. lia.
      * destruct (JS.after 125 (JS.skip_ws rest'')) as [rest3 |] eqn:Ee; simpl;
          [| exact I].
        apply after_length in Ee. lia.
Qed.

(** [JSON.parse] never stops for lack of fuel: a text it rejects is
    malformed. *)
Lemma parse_has_fuel (s : string) :
  JS.parse_value (S (2 * String.length s)) s <> JS.OutOfFuel.
Proof.
  destruct (parse_fuel (S (2 * String.length s))) as (Hv & _).
  specialize (Hv s ltac:(lia)). intros H. rewrite H in Hv. exact Hv.
Qed.

(** ** Loading and saving *)

Section StorageFacts.
Import JS Browser Storage.

Lemma loadData_try_parsed w text data :
  getItem (storage w) STORAGE_KEY = Return (Some text) ->
  parse text = Return data ->
  loadData_try w =
    match data with
    | Undefined | Null => Throw TypeError
    | _ =>
        Return {| expenses := field_or_default data "expenses" (Arr []);
                  weeklyTarget :=
                    field_or_default data "weeklyTarget" (Number (Num.of_Z 500));
                  monthlyTarget :=
                    field_or_default data "monthlyTarget" (Number (Num.of_Z 2000)) |}
    end.
Proof.
  intros Hget Hparse. unfold loadData_try. rewrite Hget. simpl.
  rewrite Hparse. simpl. destruct data; reflexivity.
Qed.

Lemma loadData_parsed w text data :
  getItem (storage w) STORAGE_KEY = Return (Some text) ->
  parse text = Return data ->
  (loadData w).1 =
    {| expenses := field_or_default data "expenses" (Arr []);
       weeklyTarget := field_or_default data "weeklyTarget" (Number (Num.of_Z 500));
       monthlyTarget :=
         field_or_default data "monthlyTarget" (Number (Num.of_Z 2000)) |}.
Proof.
  intros Hget Hparse. unfold loadData.
  rewrite (loadData_try_parsed w text data Hget Hparse).
  destruct data; reflexivity.
Qed.

End StorageFacts.

Lemma field_or_default_rule data k d :
  field_rule (stored_field data k) (field_or_default data k d) d.
Proof.
  unfold field_rule, field_or_default.
  destruct (JS.truthy (stored_field data k)) eqn:E.
  - repeat split; try discriminate. intros H. rewrite H in E. discriminate.
  - repeat split; try discriminate; reflexivity.
Qed.

(** C3: when the stored text parses, [loadData] settles each of
    [expenses], [weeklyTarget] and [monthlyTarget] on its own: a field
    that is missing (or falsy) becomes its default ([[]], 500, 2000), a
    field that is present (and truthy) is kept as stored. *)
Theorem loadData_field_defaults (w : Browser.window) (text : string)
    (data : JS.value) :
  Browser.getItem (Browser.storage w) Storage.STORAGE_KEY = JS.Return (Some text) ->
  JS.parse text = JS.Return data ->
  let loaded := (Storage.loadData w).1 in
  field_rule (stored_field data "expenses") (Storage.expenses loaded) (JS.Arr [])
  /\ field_rule (stored_field data "weeklyTarget") (Storage.weeklyTarget loaded)
       (JS.Number (Num.of_Z 500))
  /\ field_rule (stored_field data "monthlyTarget") (Storage.monthlyTarget loaded)
       (JS.Number (Num.of_Z 2000)).
Proof.
  intros Hget Hparse loaded. subst loaded.
  rewrite (loadData_parsed w text data Hget Hparse). simpl.
  repeat split; apply field_or_default_rule.
Qed.

(** The scenario of C3: the record without [monthlyTarget] loads with
    [monthlyTarget = 2000], [weeklyTarget = 500] and the one expense. *)
Lemma loadData_field_defaults_scenario :
  let loaded := (Storage.loadData (window_with (Some scenario_text))).1 in
  Storage.monthlyTarget loaded = JS.Number (Num.of_Z 2000)
  /\ Storage.weeklyTarget loaded = JS.Number (Num.of_Z 500)
  /\ Storage.expenses loaded = JS.Arr [scenario_expense].
Proof.
  destruct (loadData_field_defaults (window_with (Some scenario_text))
              scenario_text scenario_record) as (He & Hw & Hm).
  - vm_compute. reflexivity.
  - vm_compute. reflexivity.
  - split; [| split].
    + apply Hm. reflexivity.
    + etransitivity; [apply Hw; vm_compute; reflexivity | reflexivity].
    + etransitivity; [apply He; reflexivity | reflexivity].
Defined.

(** A stored target of 0 is falsy: it loads as the default. *)
Example loadData_zero_target :
  let text := JS.stringify (JS.Obj [("expenses", JS.Arr []);
                                    ("weeklyTarget", JS.Number Num.pos_zero);
                                    ("monthlyTarget", JS.Number (Num.of_Z 2000))]) in
  Storage.weeklyTarget (Storage.loadData (window_with (Some text))).1
  = JS.Number (Num.of_Z 500).
Proof. vm_compute. reflexivity. Qed.

(** C9: [loadData] and [saveData] return whatever their [try] blocks
    throw.  Without a stored key, and when the stored text does not
    parse, [loadData] returns the defaults; any exception of the block
    ends in the defaults and one console line; a refused write leaves
    the stored items as they were. *)
Theorem loadData_saveData_absorb :
  (forall w, Browser.getItem (Browser.storage w) Storage.STORAGE_KEY = JS.Return None ->
             Storage.loadData w = (Storage.defaults, w))
  /\ (forall w text e,
        Browser.getItem (Browser.storage w) Storage.STORAGE_KEY
        = JS.Return (Some text) ->
        JS.parse text = JS.Throw e ->
        (Storage.loadData w).1 = Storage.defaults
        /\ Browser.storage (Storage.loadData w).2 = Browser.storage w)
  /\ (forall w e,
        Storage.loadData_try w = JS.Throw e ->
        Storage.loadData w
        = (Storage.defaults,
           Browser.console_error "Could not load data from localStorage" e w))
  /\ (forall data w e ls,
        Browser.setItem (Browser.storage w) Storage.STORAGE_KEY
          (JS.stringify (Storage.object_of data)) = (JS.Throw e, ls) ->
        Browser.items (Browser.storage (Storage.saveData data w))
        = Browser.items (Browser.storage w)
        /\ Browser.console (Storage.saveData data w)
           = Browser.console w ++ [("Could not save data to localStorage"%string, e)]).
Proof.
  split; [| split; [| split]].
  - intros w Hget. unfold Storage.loadData, Storage.loadData_try.
    rewrite Hget. reflexivity.
  - intros w text e Hget Hparse. unfold Storage.loadData, Storage.loadData_try.
    rewrite Hget. simpl. rewrite Hparse. split; reflexivity.
  - intros w e Htry. unfold Storage.loadData. rewrite Htry. reflexivity.
  - intros data w e ls Hset. unfold Storage.saveData. rewrite Hset. simpl.
    split; [| reflexivity].
    unfold Browser.setItem in Hset.
    destruct (Browser.available (Browser.storage w));
      [destruct (Browser.accepts _ _ _)|]; inversion Hset; reflexivity.
Qed.

(** C9 at work: an empty store, a text that is no JSON, a store that
    cannot be reached, and a full store. *)
Lemma loadData_saveData_absorb_examples :
  Storage.loadData (window_with None) = (Storage.defaults, window_with None)
  /\ (Storage.loadData (window_with (Some "{bad"%string))).1 = Storage.defaults
  /\ (Storage.loadData blocked_window).1 = Storage.defaults
  /\ Browser.items (Browser.storage
                      (Storage.saveData Storage.defaults (full_window scenario_text)))
     = Browser.items (Browser.storage (full_window scenario_text)).
Proof.
  destruct loadData_saveData_absorb as (Habsent & Hparse & Hthrow & Hsave).
  split; [| split; [| split]].
  - apply Habsent. reflexivity.
  - apply (Hparse (window_with (Some "{bad"%string)) "{bad"%string JS.SyntaxError).
    + reflexivity.
    + vm_compute. reflexivity.
  - rewrite (Hthrow blocked_window JS.SecurityError); reflexivity.
  - eapply Hsave. reflexivity.
Defined.

(** ** Numbers *)

Lemma negative_truthy (x : Num.number) :
  PrimFloat.ltb x Num.pos_zero = true -> Num.truthy x = true.
Proof.
  intros Hlt.
  pose proof (FloatAxioms.ltb_spec x Num.pos_zero) as Hl. rewrite Hlt in Hl.
  unfold Num.truthy, PrimFloat.is_nan, PrimFloat.is_zero.
  rewrite (FloatAxioms.eqb_spec x x), (FloatAxioms.eqb_spec x PrimFloat.zero).
  change (Prim2SF Num.pos_zero) with (S754_zero false) in Hl.
  change (Prim2SF PrimFloat.zero) with (S754_zero false).
  destruct (Prim2SF x) as [s | s | | s m e]; try discriminate;
    destruct s; try discriminate; unfold SFeqb, SFcompare; simpl;
    rewrite ?Z.compare_refl, ?Pos.compare_cont_refl; reflexivity.
Qed.

Lemma unparseable_is_NaN (s : string) :
  Num.scan_literal (Num.trim_start s) = None -> Num.parseFloat s = Num.NaN.
Proof. unfold Num.parseFloat. intros ->. reflexivity. Qed.

Lemma Object_is_refl (x : Num.number) : App.Object_is x x = true.
Proof. unfold App.Object_is. apply FloatAxioms.Leibniz.eqb_spec. reflexivity. Qed.

Lemma Object_is_eq (a b : Num.number) : App.Object_is a b = true -> a = b.
Proof. apply FloatAxioms.Leibniz.eqb_spec. Qed.

Lemma deps_unchanged (st : App.State) : App.deps_changed false st st = false.
Proof. unfold App.deps_changed. rewrite !Object_is_refl. reflexivity. Qed.

(** ** Targets *)

(** C2, as the code has it: the handlers of the two target fields never
    reject: whatever the text, the target becomes the number it starts
    with, or 0 when that number is [NaN] or zero.  So a value without a
    decimal prefix gives the target 0, a negative value is applied as
    it is, and nothing else changes. *)
Theorem target_change_applied (value : string) (st : App.State) :
  let x := Num.parseFloat value in
  let wk := App.handleWeeklyChange value st in
  let mo := App.handleMonthlyChange value st in
  App.weeklyTarget wk = (if Num.truthy x then x else Num.pos_zero)
  /\ App.monthlyTarget mo = (if Num.truthy x then x else Num.pos_zero)
  /\ (Num.scan_literal (Num.trim_start value) = None ->
      App.weeklyTarget wk = Num.pos_zero /\ App.monthlyTarget mo = Num.pos_zero)
  /\ (PrimFloat.ltb x Num.pos_zero = true ->
      App.weeklyTarget wk = x /\ App.monthlyTarget mo = x)
  /\ App.expenses wk = App.expenses st
  /\ App.monthlyTarget wk = App.monthlyTarget st
  /\ App.expenses mo = App.expenses st
  /\ App.weeklyTarget mo = App.weeklyTarget st.
Proof.
  intros x wk mo. subst x wk mo. simpl.
  split; [reflexivity |]. split; [reflexivity |].
  split; [| split; [| repeat split]].
  - intros Hscan. rewrite (unparseable_is_NaN value Hscan). split; reflexivity.
  - intros Hneg. unfold Num.or_else. rewrite (negative_truthy _ Hneg).
    split; reflexivity.
Qed.

(** C2 at work: "abc" gives the target 0, "-5" the target -5. *)
Lemma target_change_applied_examples :
  App.weeklyTarget (App.handleWeeklyChange "abc" App.initial) = Num.pos_zero
  /\ App.weeklyTarget (App.handleWeeklyChange "-5" App.initial)
     = Num.parseFloat "-5".
Proof.
  split.
  - destruct (target_change_applied "abc" App.initial)
      as (_ & _ & Hunparseable & _).
    destruct Hunparseable as [Hweekly _]; [reflexivity | exact Hweekly].
  - destruct (target_change_applied "-5" App.initial)
      as (_ & _ & _ & Hnegative & _).
    destruct Hnegative as [Hweekly _]; [reflexivity | exact Hweekly].
Defined.

(** C2 fails as stated: [setWeeklyTarget(-5)] leaves a weekly target of
    -5, which is negative and is not 0. *)
Lemma negative_target_kept :
  let st := App.handleWeeklyChange "-5" App.initial in
  App.weeklyTarget st = Num.of_Z (-5)
  /\ PrimFloat.ltb (App.weeklyTarget st) Num.pos_zero = true
  /\ App.weeklyTarget st <> Num.pos_zero.
Proof.
  split; [| split].
  - vm_compute. reflexivity.
  - vm_compute. reflexivity.
  - intros H. apply (f_equal PrimFloat.is_zero) in H. vm_compute in H. discriminate H.
Qed.

(** ** Adding an expense *)

(** C4: an amount without a decimal prefix is rejected: the event
    leaves the state and the window, hence the store and the list of
    its writes, as they were. *)
Theorem unparseable_amount_rejected (tz now : Z) (newExpense : App.NewExpense)
    (st : App.State) (w : Browser.window) :
  Num.scan_literal (Num.trim_start (App.new_amount newExpense)) = None ->
  App.dispatch tz (App.Submit newExpense now) (st, w) = (st, w).
Proof.
  intros Hscan. unfold App.dispatch, App.handle, App.handleSubmit.
  rewrite (unparseable_is_NaN _ Hscan).
  replace (Num.isNaN Num.NaN) with true by reflexivity.
  rewrite orb_true_r. rewrite deps_unchanged. reflexivity.
Qed.

(** The scenario of C4: [addExpense("abc", "Food", "2024-07-10")]. *)
Lemma unparseable_amount_rejected_scenario :
  App.dispatch 19800000
    (App.Submit {| App.new_amount := "abc"; App.new_category := "Food";
                   App.new_date := "2024-07-10" |} 1720569600000)
    (App.initial, window_with None)
  = (App.initial, window_with None).
Proof. apply unparseable_amount_rejected. reflexivity. Defined.

(** ** Deleting an expense *)

Lemma filter_keeps_all {A} (f : A -> bool) (l : list A) :
  (forall x, In x l -> f x = true) -> List.filter f l = l.
Proof.
  induction l as [| a l IH]; intros Hall; simpl.
  - reflexivity.
  - rewrite (Hall a (or_introl eq_refl)). f_equal.
    apply IH. intros x Hx. apply Hall. right. exact Hx.
Qed.

(** C8: [deleteExpense(id)] removes the entry with that id and keeps
    every other entry, in place, wherever the entry stands in the list;
    without a matching entry the state is returned as it is.  Ids are
    unique in the data model: [l1] and [l2] hold no further match. *)
Theorem deleteExpense_removes_the_match (id0 : Num.number) (st : App.State) :
  let st' := App.handleDeleteExpense id0 st in
  (forall l1 e l2,
      App.expenses st = l1 ++ e :: l2 ->
      Num.strict_eq (App.id e) id0 = true ->
      (forall x, In x (l1 ++ l2) -> Num.strict_eq (App.id x) id0 = false) ->
      App.expenses st' = l1 ++ l2)
  /\ ((forall x, In x (App.expenses st) -> Num.strict_eq (App.id x) id0 = false) ->
      st' = st)
  /\ App.weeklyTarget st' = App.weeklyTarget st
  /\ App.monthlyTarget st' = App.monthlyTarget st
  /\ App.activePage st' = App.activePage st.
Proof.
  intros st'. subst st'. split; [| split; [| repeat split]].
  - intros l1 e l2 Hl He Hothers. simpl. rewrite Hl.
    rewrite List.filter_app. simpl. rewrite He. simpl.
    rewrite !filter_keeps_all; [reflexivity | |];
      intros x Hx; rewrite Hothers; [reflexivity | | reflexivity |];
      apply in_or_app; [right | left]; exact Hx.
  - intros Habsent. destruct st as [l wt mt page]. unfold App.handleDeleteExpense,
      App.setExpenses. simpl in *. f_equal.
    apply filter_keeps_all. intros x Hx. rewrite (Habsent x Hx). reflexivity.
Qed.

(** C8 at work: deleting the middle one of three entries, and an id
    that no entry has. *)
Lemma deleteExpense_removes_the_match_examples :
  let e1 := expense 1 "100" "Food" "2024-07-01" in
  let e2 := expense 2 "12.5" "Travel" "2024-07-10" in
  let e3 := expense 3 "7" "Other" "2024-07-08" in
  let st := state_with [e1; e2; e3] (Num.of_Z 500) (Num.of_Z 2000) in
  App.expenses (App.handleDeleteExpense (Num.of_Z 2) st) = [e1; e3]
  /\ App.handleDeleteExpense (Num.of_Z 9) st = st.
Proof.
  intros e1 e2 e3 st.
  destruct (deleteExpense_removes_the_match (Num.of_Z 2) st) as (Hpresent & _).
  destruct (deleteExpense_removes_the_match (Num.of_Z 9) st) as (_ & Habsent & _).
  split.
  - apply (Hpresent [e1] e2 [e3]).
    + reflexivity.
    + reflexivity.
    + intros x [<- | [<- | []]]; reflexivity.
  - apply Habsent. intros x [<- | [<- | [<- | []]]]; reflexivity.
Defined.

(** ** The order of the list *)

Section SortFacts.
Variable tz : Z.










End SortFacts.

Section OrderInvariant.
Variable tz : Z.


Lemma run_cons ev evs sw :
  App.run tz (ev :: evs) sw = App.run tz evs (App.dispatch tz ev sw).
Proof. reflexivity. Qed.



End OrderInvariant.



(** ** Aggregates *)

Section AggregateFacts.
Variable tz : Z.
Variables sow som : option Z.

Lemma fold_account_weekly (l : list App.Expense) (acc : App.Aggregates) :
  App.weeklySpent (fold_left (App.account tz sow som) l acc)
  = fold_left PrimFloat.add (amounts_from tz sow l) (App.weeklySpent acc).
Proof.
  revert acc. induction l as [| e l IH]; intros acc; simpl.
  - reflexivity.
  - rewrite IH. unfold amounts_from. simpl. unfold on_or_after at 2.
    unfold App.account.
    destruct (JSDate.ge (App.expenseDate tz e) som),
             (JSDate.ge (App.expenseDate tz e) sow); reflexivity.
Qed.

Lemma fold_account_monthly (l : list App.Expense) (acc : App.Aggregates) :
  App.monthlySpent (fold_left (App.account tz sow som) l acc)
  = fold_left PrimFloat.add (amounts_from tz som l) (App.monthlySpent acc).
Proof.
  revert acc. induction l as [| e l IH]; intros acc; simpl.
  - reflexivity.
  - rewrite IH. unfold amounts_from. simpl. unfold on_or_after at 2.
    unfold App.account.
    destruct (JSDate.ge (App.expenseDate tz e) som); reflexivity.
Qed.

Lemma fold_account_category (c : string) (l : list App.Expense)
    (acc : App.Aggregates) :
  App.categoryTotals (fold_left (App.account tz sow som) l acc) !! c
  = match App.categoryTotals acc !! c with
    | Some x => Some (fold_left PrimFloat.add (amounts_of tz som c l) x)
    | None => None
    end.
Proof.
  revert acc. induction l as [| e l IH]; intros acc; simpl.
  - destruct (App.categoryTotals acc !! c); reflexivity.
  - rewrite IH. unfold amounts_of. simpl. unfold in_category at 2, on_or_after.
    unfold App.account.
    destruct (JSDate.ge (App.expenseDate tz e) som); simpl; [| reflexivity].
    destruct (String.eqb_spec (App.category e) c) as [-> | Hne].
    + destruct (App.categoryTotals acc !! c) as [x |] eqn:Hc; simpl.
      * rewrite lookup_insert_eq. reflexivity.
      * rewrite Hc. reflexivity.
    + destruct (App.categoryTotals acc !! App.category e) as [y |]; simpl;
        [rewrite lookup_insert_ne by exact Hne |]; reflexivity.
Qed.

End AggregateFacts.

Lemma zero_totals_lookup (c : string) :
  App.zero_totals !! c = if is_category c then Some Num.pos_zero else None.
Proof.
  unfold App.zero_totals, is_category, App.CATEGORIES. simpl.
  repeat (rewrite lookup_insert; case_decide; [subst c; reflexivity |]).
  rewrite lookup_empty.
  repeat match goal with
         | H : ?k <> c |- _ =>
             apply not_eq_sym, String.eqb_neq in H; rewrite H; clear H
         end.
  reflexivity.
Qed.

Lemma aggregates_weeklySpent tz now l :
  App.weeklySpent (App.aggregates tz now l)
  = fsum (amounts_from tz (App.startOfWeek tz now) l).
Proof. apply fold_account_weekly. Qed.

Lemma aggregates_monthlySpent tz now l :
  App.monthlySpent (App.aggregates tz now l)
  = fsum (amounts_from tz (App.startOfMonth tz now) l).
Proof. apply fold_account_monthly. Qed.

Lemma aggregates_categoryTotals tz now l c :
  App.categoryTotals (App.aggregates tz now l) !! c
  = if is_category c
    then Some (fsum (amounts_of tz (App.startOfMonth tz now) c l))
    else None.
Proof.
  unfold App.aggregates. rewrite fold_account_category. simpl.
  rewrite zero_totals_lookup. destruct (is_category c); reflexivity.
Qed.

Lemma is_category_In (c : string) : is_category c = true <-> In c App.CATEGORIES.
Proof.
  unfold is_category. rewrite existsb_exists. split.
  - intros (k & Hk & Heq). apply String.eqb_eq in Heq. subst k. exact Hk.
  - intros Hc. exists c. split; [exact Hc | apply String.eqb_refl].
Qed.

Lemma filter_drops_all {A} (f : A -> bool) (l : list A) :
  (forall x, In x l -> f x = false) -> List.filter f l = [].
Proof.
  induction l as [| a l IH]; intros Hnone; simpl.
  - reflexivity.
  - rewrite (Hnone a (or_introl eq_refl)). apply IH.
    intros x Hx. apply Hnone. right. exact Hx.
Qed.

(** C10: whatever the list and the instant, [categoryTotals] has
    exactly the five categories as keys, each with a number, and the
    number is 0 for a category that no expense of the monthly window
    has (so all five are 0 for the empty list). *)
Theorem category_totals_keys (tz now : Z) (l : list App.Expense) :
  let totals := App.categoryTotals (App.aggregates tz now l) in
  dom totals = list_to_set App.CATEGORIES
  /\ forall c,
       In c App.CATEGORIES ->
       exists x : Num.number,
         totals !! c = Some x
         /\ ((forall e, In e l ->
                        on_or_after tz (App.startOfMonth tz now) e = true ->
                        App.category e <> c) ->
             x = Num.pos_zero).
Proof.
  intros totals. subst totals. split.
  - apply set_eq. intros c. rewrite elem_of_dom, aggregates_categoryTotals.
    rewrite elem_of_list_to_set, list_elem_of_In, <- is_category_In.
    destruct (is_category c); split; intros H; try done; try (eexists; done).
  - intros c Hc. apply is_category_In in Hc.
    rewrite aggregates_categoryTotals, Hc. eexists. split; [reflexivity |].
    intros Hnone. unfold amounts_of. rewrite filter_drops_all; [reflexivity |].
    intros e He. unfold in_category.
    destruct (on_or_after tz (App.startOfMonth tz now) e) eqn:Hin; [| reflexivity].
    simpl. apply String.eqb_neq. exact (Hnone e He Hin).
Qed.

(** C10 at work: no expense of the list is in "Dress"; and the empty
    list. *)
Lemma category_totals_keys_examples :
  let l := [expense 1 "100" "Food" "2024-07-07";
            expense 2 "12.5" "Travel" "2024-07-10"] in
  App.categoryTotals (App.aggregates 19800000 1720580400000 l) !! "Dress"
  = Some Num.pos_zero
  /\ Forall (fun c => App.categoryTotals (App.aggregates 19800000 1720580400000 [])
                      !! c = Some Num.pos_zero) App.CATEGORIES.
Proof.
  intros l. split.
  - destruct (category_totals_keys 19800000 1720580400000 l) as [_ Hkeys].
    destruct (Hkeys "Dress"%string) as (x & Hx & Hzero).
    + simpl. tauto.
    + rewrite Hx, Hzero; [reflexivity |].
      intros e [<- | [<- | []]] _; discriminate.
  - destruct (category_totals_keys 19800000 1720580400000 []) as [_ Hkeys].
    apply List.Forall_forall. intros c Hc.
    destruct (Hkeys c Hc) as (x & Hx & Hzero).
    rewrite Hx, Hzero; [reflexivity |]. intros e [].
Defined.

(** ** The calendar *)

Lemma civil_round_trip (z : Z) :
  let '(y, m, d) := JSDate.civil_from_days z in
  0 <= m < 12 /\ 1 <= d <= 31 /\ JSDate.days_from_civil y m 1 + d - 1 = z.
Proof.
  unfold JSDate.civil_from_days, JSDate.days_from_civil.
  set (z' := z + 719468).
  set (era := z' / 146097). set (doe := z' mod 146097).
  set (yoe := (doe - doe / 1460 + doe / 36524 - doe / 146096) / 365).
  set (doy := doe - (365 * yoe + yoe / 4 - yoe / 100)).
  set (mp := (5 * doy + 2) / 153).
  set (d := doy - (153 * mp + 2) / 5 + 1).
  assert (Hdoe : 0 <= doe < 146097) by (subst doe; apply Z.mod_pos_bound; lia).
  assert (Hy : 0 <= yoe < 400 /\ 0 <= doy < 366).
  { subst doy yoe. clearbody doe. clear -Hdoe.
    Z.to_euclidean_division_equations; lia. }
  assert (Hmp : 0 <= mp < 12 /\ 1 <= d <= 31).
  { subst d mp. destruct Hy as [_ Hy]. clearbody doy. clear -Hy.
    Z.to_euclidean_division_equations; lia. }
  assert (Hz : z' = 146097 * era + doe) by (subst era doe; apply Z.div_mod; lia).
  assert (Hdoy : doe = doy + (365 * yoe + yoe / 4 - yoe / 100)) by (subst doy; lia).
  assert (Hd : doy = d + (153 * mp + 2) / 5 - 1) by (subst d; lia).
  clearbody d mp doy yoe doe era.
  destruct Hy as [Hy _]. destruct Hmp as [Hmp Hd'].
  assert (Hdiv : forall a, (yoe + era * 400 + a - a) / 400 = era
                           /\ (yoe + era * 400 + a - a) mod 400 = yoe).
  { intros a. replace (yoe + era * 400 + a - a) with (yoe + era * 400) by lia.
    rewrite Z.div_add, Z.mod_add by lia.
    rewrite Z.div_small, Z.mod_small by lia. split; lia. }
  destruct (mp <? 10) eqn:E1; [apply Z.ltb_lt in E1 | apply Z.ltb_ge in E1].
  - replace (mp + 2 <? 2) with false by (symmetry; apply Z.ltb_ge; lia).
    destruct (Hdiv 0) as [Ha Hb].
    replace (yoe + era * 400 + 0 - 0) with (yoe + era * 400 + 0) in * by lia.
    rewrite Ha, Hb. replace (mp + 2 - 2) with mp by lia.
    split; [lia |]. split; [lia |]. lia.
  - replace (mp - 10 <? 2) with true by (symmetry; apply Z.ltb_lt; lia).
    destruct (Hdiv 1) as [Ha Hb].
    rewrite Ha, Hb. replace (mp - 10 + 10) with mp by lia.
    split; [lia |]. split; [lia |]. lia.
Qed.

Lemma MakeDay_same_month (t dt : Z) :
  JSDate.MakeDay (JSDate.YearFromTime t) (JSDate.MonthFromTime t) dt
  = JSDate.Day t - JSDate.DateFromTime t + dt.
Proof.
  unfold JSDate.MakeDay, JSDate.YearFromTime, JSDate.MonthFromTime,
    JSDate.DateFromTime.
  pose proof (civil_round_trip (JSDate.Day t)) as H.
  destruct (JSDate.civil_from_days (JSDate.Day t)) as [[y m] d]. simpl.
  destruct H as (Hm & _ & Hround).
  rewrite Z.div_small, Z.mod_small by lia.
  replace (y + 0) with y by lia. lia.
Qed.

Lemma time_split (t : Z) :
  t = JSDate.Day t * JSDate.msPerDay + JSDate.TimeWithinDay t
  /\ 0 <= JSDate.TimeWithinDay t < JSDate.msPerDay.
Proof.
  unfold JSDate.Day, JSDate.TimeWithinDay, JSDate.msPerDay. split.
  - rewrite Z.mul_comm. apply Z.div_mod. lia.
  - apply Z.mod_pos_bound. lia.
Qed.

Lemma Day_of_midnight (d : Z) : JSDate.Day (d * JSDate.msPerDay) = d.
Proof. unfold JSDate.Day, JSDate.msPerDay. apply Z.div_mul. lia. Qed.

Lemma Day_shift (t k : Z) :
  JSDate.Day (t - k * JSDate.msPerDay) = JSDate.Day t - k.
Proof.
  unfold JSDate.Day, JSDate.msPerDay.
  replace (t - k * 86400000) with (t + (- k) * 86400000) by lia.
  rewrite Z.div_add by lia. lia.
Qed.

Lemma TimeClip_in_range (t : Z) :
  -8640000000000000 <= t <= 8640000000000000 -> JSDate.TimeClip t = Some t.
Proof.
  intros H. unfold JSDate.TimeClip.
  replace (Z.abs t <=? 8640000000000000) with true; [reflexivity |].
  symmetry. apply Z.leb_le. lia.
Qed.

Lemma append_cons (c : ascii) (s t : string) :
  String c s +:+ t = String c (s +:+ t).
Proof. reflexivity. Qed.

Lemma parse_date_app (s t : string) (day : Z) (r : string) :
  JSDate.parse_date s = Some (day, r) ->
  JSDate.parse_date (s +:+ t) = Some (day, r +:+ t).
Proof.
  do 10 (destruct s as [| ? s]; [discriminate |]).
  rewrite !append_cons. unfold JSDate.parse_date.
  destruct (_ && _); [| discriminate].
  destruct (JSDate.two_digits _ _); [| discriminate].
  destruct (JSDate.two_digits _ _); [| discriminate].
  destruct (JSDate.two_digits _ _); [| discriminate].
  destruct (JSDate.two_digits _ _); [| discriminate].
  destruct (_ && _); [| discriminate].
  intros H. inversion H; subst. reflexivity.
Qed.

Lemma two_digits_range a b n : JSDate.two_digits a b = Some n -> 0 <= n <= 99.
Proof.
  unfold JSDate.two_digits, Num.digit.
  destruct (_ && _) eqn:Ea; [| discriminate].
  destruct ((48 <=? Z.of_N (N_of_ascii b)) && _) eqn:Eb; [| discriminate].
  intros H. inversion H; subst. lia.
Qed.

Lemma days_from_civil_range y m :
  0 <= y <= 9999 -> 0 <= m <= 11 ->
  -1000000 <= JSDate.days_from_civil y m 1 <= 3000000.
Proof.
  intros Hy Hm. unfold JSDate.days_from_civil.
  destruct (m <? 2) eqn:E; [apply Z.ltb_lt in E | apply Z.ltb_ge in E];
    Z.to_euclidean_division_equations; lia.
Qed.

Lemma parse_date_range (s : string) (day : Z) (r : string) :
  JSDate.parse_date s = Some (day, r) -> -1000000 <= day <= 3000099.
Proof.
  destruct s as [| y1 [| y2 [| y3 [| y4 [| h1 [| m1 [| m2 [| h2 [| d1 [| d2 rest]]]]]]]]]];
    try discriminate.
  unfold JSDate.parse_date.
  destruct (_ && _); [| discriminate].
  destruct (JSDate.two_digits y1 y2) as [yh |] eqn:E1; [| discriminate].
  destruct (JSDate.two_digits y3 y4) as [yl |] eqn:E2; [| discriminate].
  destruct (JSDate.two_digits m1 m2) as [m |] eqn:E3; [| discriminate].
  destruct (JSDate.two_digits d1 d2) as [d |] eqn:E4; [| discriminate].
  apply two_digits_range in E1, E2, E3, E4.
  destruct (_ && _) eqn:Hc; [| discriminate].
  intros H. inversion H; subst. clear H.
  apply andb_prop in Hc. destruct Hc as [Hc Hd].
  apply andb_prop in Hc. destruct Hc as [Hc Hd1].
  apply andb_prop in Hc. destruct Hc as [Hm1 Hm2].
  apply Z.leb_le in Hm1, Hm2, Hd1.
  unfold JSDate.MakeDay.
  rewrite Z.div_small, Z.mod_small by lia.
  pose proof (days_from_civil_range (100 * yh + yl + 0) (m - 1)). lia.
Qed.

Lemma expenseDate_midnight (tz : Z) (e : App.Expense) (day : Z) :
  Z.abs tz <= JSDate.msPerDay ->
  JSDate.parse_date (App.date e) = Some (day, EmptyString) ->
  App.expenseDate tz e = Some (day * JSDate.msPerDay - tz).
Proof.
  intros Htz Hdate. unfold App.expenseDate, JSDate.of_string.
  rewrite (parse_date_app _ "T00:00:00" _ _ Hdate).
  change (EmptyString +:+ "T00:00:00") with "T00:00:00". cbv beta iota.
  change (Num.byte "T" =? 84) with true.
  change (JSDate.parse_time "00:00:00") with (Some 0). cbv beta iota.
  unfold JSDate.UTC, JSDate.MakeDate.
  apply parse_date_range in Hdate.
  rewrite TimeClip_in_range by (unfold JSDate.msPerDay in *; lia).
  f_equal. lia.
Qed.

(** The days back to Monday: 0 on a Monday, 6 on a Sunday. *)
Lemma getStartOfWeek_days_back (tz now : Z) :
  App.getStartOfWeek tz now
  = JSDate.TimeClip
      (now - ((JSDate.getDay tz now + 6) mod 7) * JSDate.msPerDay).
Proof.
  unfold App.getStartOfWeek, JSDate.setDate, JSDate.getDate, JSDate.getDay.
  rewrite MakeDay_same_month. f_equal.
  unfold JSDate.UTC, JSDate.MakeDate.
  set (L := JSDate.LocalTime tz now).
  destruct (time_split L) as [HL _].
  assert (HLnow : L = now + tz) by reflexivity.
  assert (Hwd : 0 <= JSDate.WeekDay L < 7)
    by (unfold JSDate.WeekDay; apply Z.mod_pos_bound; lia).
  set (wd := JSDate.WeekDay L) in *.
  assert (Hback : (wd + 6) mod 7 = wd - (if wd =? 0 then -6 else 1)).
  { destruct (wd =? 0) eqn:E; [apply Z.eqb_eq in E | apply Z.eqb_neq in E].
    - rewrite E. reflexivity.
    - replace (wd + 6) with (wd - 1 + 1 * 7) by lia.
      rewrite Z.mod_add, Z.mod_small by lia. lia. }
  rewrite Hback.
  set (adj := if wd =? 0 then -6 else 1) in *.
  set (D := JSDate.Day L) in *. set (T := JSDate.TimeWithinDay L) in *.
  set (d := JSDate.DateFromTime L).
  unfold JSDate.msPerDay in *. lia.
Qed.

(** C5: for an instant [now] that leaves room for a week before it in
    the range of [Date], the week window starts at an instant [s] that
    is a Monday, at 00:00:00 local time, at or before [now] and less
    than seven days before it (six days before the day of [now] when
    that is a Sunday); [weeklySpent] is the sum of the amounts of
    exactly the expenses whose date, read at local midnight, is on or
    after [s]; and, the zone being within a day of UTC, a date
    [YYYY-MM-DD] is on or after [s] when its day is the day of [s] or a
    later one. *)
Theorem week_window (tz now : Z) (l : list App.Expense) :
  -8640000000000000 + 7 * JSDate.msPerDay <= now <= 8640000000000000 ->
  exists s : Z,
    App.startOfWeek tz now = Some s
    /\ JSDate.WeekDay (JSDate.LocalTime tz s) = 1
    /\ JSDate.TimeWithinDay (JSDate.LocalTime tz s) = 0
    /\ s <= now < s + 7 * JSDate.msPerDay
    /\ (JSDate.getDay tz now = 0 ->
        JSDate.Day (JSDate.LocalTime tz now) - JSDate.Day (JSDate.LocalTime tz s) = 6)
    /\ App.weeklySpent (App.aggregates tz now l)
       = fsum (amounts_from tz (Some s) l)
    /\ (Z.abs tz <= JSDate.msPerDay ->
        forall e day,
          JSDate.parse_date (App.date e) = Some (day, EmptyString) ->
          on_or_after tz (Some s) e = (JSDate.Day (JSDate.LocalTime tz s) <=? day)).
Proof.
  intros Hrange.
  set (L := JSDate.LocalTime tz now).
  set (k := (JSDate.getDay tz now + 6) mod 7).
  assert (Hk : 0 <= k < 7) by (subst k; apply Z.mod_pos_bound; lia).
  destruct (time_split L) as [HL HT].
  assert (HLnow : L = now + tz) by reflexivity.
  exists ((JSDate.Day L - k) * JSDate.msPerDay - tz).
  assert (Hstart : App.startOfWeek tz now
                   = Some ((JSDate.Day L - k) * JSDate.msPerDay - tz)).
  { unfold App.startOfWeek. rewrite getStartOfWeek_days_back. fold k.
    rewrite TimeClip_in_range by (unfold JSDate.msPerDay in *; lia).
    unfold JSDate.setHours_0, JSDate.UTC, JSDate.MakeDate, JSDate.MakeTime.
    replace (JSDate.LocalTime tz (now - k * JSDate.msPerDay))
      with (L - k * JSDate.msPerDay) by (unfold JSDate.LocalTime in *; lia).
    rewrite Day_shift.
    rewrite TimeClip_in_range by (unfold JSDate.msPerDay in *; lia).
    f_equal. lia. }
  assert (Hlocal : JSDate.LocalTime tz ((JSDate.Day L - k) * JSDate.msPerDay - tz)
                   = (JSDate.Day L - k) * JSDate.msPerDay)
    by (unfold JSDate.LocalTime; lia).
  rewrite Hlocal.
  split; [exact Hstart |]. split; [| split; [| split; [| split; [| split]]]].
  - unfold JSDate.WeekDay. rewrite Day_of_midnight.
    subst k. unfold JSDate.getDay, JSDate.WeekDay. fold L.
    generalize (JSDate.Day L). intros D.
    Z.to_euclidean_division_equations; lia.
  - unfold JSDate.TimeWithinDay, JSDate.msPerDay. apply Z.mod_mul. lia.
  - unfold JSDate.msPerDay in *. lia.
  - intros Hsunday. rewrite Day_of_midnight. subst k. rewrite Hsunday.
    change ((0 + 6) mod 7) with 6. lia.
  - rewrite aggregates_weeklySpent, Hstart. reflexivity.
  - intros Htz e day Hdate. unfold on_or_after.
    rewrite (expenseDate_midnight tz e day Htz Hdate), Day_of_midnight.
    unfold JSDate.ge.
    destruct (Z.leb_spec (JSDate.Day L - k) day) as [Hle | Hgt];
      [apply Z.leb_le | apply Z.leb_gt]; unfold JSDate.msPerDay; lia.
Qed.

(** The scenario of C5: at noon of Wednesday 2024-07-10 in a zone five
    and a half hours ahead of UTC the window starts at the local
    midnight of Monday 2024-07-08, and an expense dated 2024-07-07
    counts for the month but not for the week. *)
Lemma week_window_scenario :
  let tz := 19800000 in
  let now := 1720593000000 in
  let l := [expense 1 "100" "Food" "2024-07-07"] in
  JSDate.getDay tz now = 3
  /\ App.startOfWeek tz now = JSDate.of_string tz "2024-07-08T00:00:00"
  /\ App.startOfMonth tz now = JSDate.of_string tz "2024-07-01T00:00:00"
  /\ App.weeklySpent (App.aggregates tz now l) = Num.pos_zero
  /\ App.monthlySpent (App.aggregates tz now l) = Num.of_Z 100.
Proof.
  intros tz now l.
  destruct (week_window tz now l) as (s & Hs & _ & _ & _ & _ & Hweekly & _).
  - unfold JSDate.msPerDay, now. lia.
  - split; [reflexivity |].
    split; [rewrite Hs; vm_compute in Hs; injection Hs as <-; reflexivity |].
    split; [vm_compute; reflexivity |].
    split; [| vm_compute; reflexivity].
    rewrite Hweekly. vm_compute in Hs. injection Hs as <-.
    vm_compute. reflexivity.
Defined.

(** ** Category totals *)

Section Partition.
Variable tz : Z.
Variable som : option Z.

(** One more element in the bucket [c] is one more element in the
    buckets taken together. *)
Lemma buckets_cons {A} (cats : list string) (c : string) (a : A)
    (g : string -> list A) :
  NoDup cats -> In c cats ->
  concat (map (fun c' => if String.eqb c c' then a :: g c' else g c') cats)
  ≡ₚ a :: concat (map g cats).
Proof.
  intros Hnodup. induction Hnodup as [| k cats Hk Hnodup IH]; intros Hin.
  - destruct Hin.
  - simpl. destruct (String.eqb_spec c k) as [-> | Hne].
    + simpl. apply Permutation_skip. apply Permutation_app_head.
      assert (Hsame : map (fun c' => if String.eqb k c' then a :: g c' else g c') cats
                      = map g cats).
      { apply map_ext_in. intros c' Hc'.
        destruct (String.eqb_spec k c') as [<- | _]; [| reflexivity].
        exfalso. apply Hk, list_elem_of_In, Hc'. }
      rewrite Hsame. reflexivity.
    + destruct Hin as [-> | Hin]; [contradiction |].
      rewrite (IH Hin). symmetry. apply Permutation_middle.
Qed.

Lemma buckets_skip {A} (cats : list string) (c : string) (a : A)
    (g : string -> list A) :
  ~ In c cats ->
  map (fun c' => if String.eqb c c' then a :: g c' else g c') cats = map g cats.
Proof.
  intros Hout. apply map_ext_in. intros c' Hc'.
  destruct (String.eqb_spec c c') as [<- | _]; [contradiction | reflexivity].
Qed.

Lemma CATEGORIES_NoDup : NoDup App.CATEGORIES.
Proof. apply (bool_decide_unpack _). vm_compute. exact I. Qed.

Lemma filter_in_category_cons (c : string) (e : App.Expense) (l : list App.Expense) :
  List.filter (in_category tz som c) (e :: l)
  = if on_or_after tz som e && String.eqb (App.category e) c
    then e :: List.filter (in_category tz som c) l
    else List.filter (in_category tz som c) l.
Proof. reflexivity. Qed.

(** The expenses of the window are those of the five categories and
    those of no category. *)
Lemma expenses_partition (l : list App.Expense) :
  List.filter (on_or_after tz som) l
  ≡ₚ concat (map (fun c => List.filter (in_category tz som c) l) App.CATEGORIES)
     ++ List.filter (outside_categories tz som) l.
Proof.
  set (buckets := fun l => map (fun c => List.filter (in_category tz som c) l)
                             App.CATEGORIES).
  change (List.filter (on_or_after tz som) l
          ≡ₚ concat (buckets l) ++ List.filter (outside_categories tz som) l).
  induction l as [| e l IH].
  - reflexivity.
  - destruct (on_or_after tz som e) eqn:Hin.
    + destruct (is_category (App.category e)) eqn:Hcat.
      * assert (Hb : concat (buckets (e :: l)) ≡ₚ e :: concat (buckets l)).
        { subst buckets. cbv beta.
          erewrite map_ext
            by (intros c; rewrite filter_in_category_cons, Hin; reflexivity).
          apply is_category_In in Hcat.
          exact (buckets_cons _ _ _ (fun c' => List.filter (in_category tz som c') l)
                   CATEGORIES_NoDup Hcat). }
        rewrite Hb. simpl. unfold outside_categories at 1.
        rewrite Hin, Hcat. simpl. apply Permutation_skip. exact IH.
      * assert (Hb : buckets (e :: l) = buckets l).
        { subst buckets. cbv beta.
          erewrite map_ext
            by (intros c; rewrite filter_in_category_cons, Hin; reflexivity).
          apply buckets_skip.
          intros Hc. apply is_category_In in Hc. congruence. }
        rewrite Hb. simpl. unfold outside_categories at 1.
        rewrite Hin, Hcat. simpl. rewrite IH. apply Permutation_middle.
    + assert (Hb : buckets (e :: l) = buckets l).
      { subst buckets. cbv beta. apply map_ext. intros c.
        rewrite filter_in_category_cons, Hin. reflexivity. }
      rewrite Hb. simpl. unfold outside_categories at 1.
      rewrite Hin. simpl. exact IH.
Qed.

Lemma amounts_partition (l : list App.Expense) :
  amounts_from tz som l
  ≡ₚ concat (map (fun c => amounts_of tz som c l) App.CATEGORIES)
     ++ amounts_outside tz som l.
Proof.
  unfold amounts_from, amounts_outside.
  rewrite (expenses_partition l) at 1.
  rewrite map_app, concat_map, map_map. reflexivity.
Qed.

End Partition.

(** C6 fails as stated: 0.1 and 0.4 for Food and 0.2 for Travel, all
    in the month, give the totals 0.5 and 0.2, which add up to 0.7 in
    whatever order the five are added, while [monthlySpent] is
    0.7000000000000001. *)
Lemma category_totals_sum_inexact :
  let agg := App.aggregates 19800000 1720593000000 tenths in
  Forall (fun e => In (App.category e) App.CATEGORIES) tenths
  /\ App.monthlySpent agg = Num.parseFloat "0.7000000000000001"
  /\ sum_of_totals App.CATEGORIES (App.categoryTotals agg) = Num.parseFloat "0.7"
  /\ forallb (fun order =>
                negb (Num.strict_eq (sum_of_totals order (App.categoryTotals agg))
                        (App.monthlySpent agg)))
       (permutations App.CATEGORIES) = true.
Proof.
  split; [| split; [| split]].
  - repeat constructor; simpl; tauto.
  - vm_compute. reflexivity.
  - vm_compute. reflexivity.
  - vm_compute. reflexivity.
Qed.

(** ** Whole numbers in binary64

    Adding two whole numbers is exact as long as the sum stays below
    [2^53]: the proof follows the rounding of [SFadd] on the canonical
    representations. *)

Lemma iter_xO_value (n d : positive) : Zpos (Pos.iter xO n d) = Zpos n * 2 ^ Zpos d.
Proof.
  induction d as [| d IH] using Pos.peano_ind.
  - simpl. lia.
  - rewrite Pos.iter_succ, Pos2Z.inj_succ, Z.pow_succ_r by lia.
    rewrite Pos2Z.inj_xO, IH. lia.
Qed.

Lemma shiftp_value n j : 0 <= j -> Zpos (shiftp n j) = Zpos n * 2 ^ j.
Proof.
  intros Hj. destruct j as [| d | d]; simpl; try lia. apply iter_xO_value.
Qed.

Lemma iter_xO_digits (n d : positive) :
  digits2_pos (Pos.iter xO n d) = (digits2_pos n + d)%positive.
Proof.
  induction d as [| d IH] using Pos.peano_ind.
  - simpl. lia.
  - rewrite Pos.iter_succ. simpl. rewrite IH. lia.
Qed.

Lemma shiftp_digits n j :
  0 <= j -> Zpos (digits2_pos (shiftp n j)) = Zpos (digits2_pos n) + j.
Proof.
  intros Hj. destruct j as [| d | d]; simpl; try lia. rewrite iter_xO_digits. lia.
Qed.

Lemma shiftp_shiftp n a b : 0 <= a -> 0 <= b -> shiftp (shiftp n a) b = shiftp n (a + b).
Proof.
  intros Ha Hb. apply Pos2Z.inj. rewrite !shiftp_value by lia.
  rewrite Z.pow_add_r by lia. lia.
Qed.

Lemma digits2_size p : digits2_pos p = Pos.size p.
Proof. induction p; simpl; congruence. Qed.

Lemma digits_bound n k : 0 <= k -> Zpos n < 2 ^ k -> Zpos (digits2_pos n) <= k.
Proof.
  intros Hk Hn. rewrite digits2_size.
  pose proof (Pos.size_le n) as Hle.
  destruct (Z.le_gt_cases (Zpos (Pos.size n)) k) as [H | H]; [exact H | exfalso].
  assert (H2 : 2 ^ (k + 1) <= 2 ^ Zpos (Pos.size n)) by (apply Z.pow_le_mono_r; lia).
  rewrite Z.pow_add_r in H2 by lia.
  assert (H3 : 2 ^ Zpos (Pos.size n) <= 2 * Zpos n).
  { change (2 * Zpos n) with (Zpos n~0). rewrite <- Pos2Z.inj_pow. apply Pos2Z.pos_le_pos. exact Hle. }
  lia.
Qed.

Lemma shr_exact (d m : positive) :
  SpecFloat.iter_pos shr_1 d {| shr_m := Zpos (Pos.iter xO m d); shr_r := false; shr_s := false |}
  = {| shr_m := Zpos m; shr_r := false; shr_s := false |}.
Proof.
  revert m. induction d as [d IH | d IH |]; intros m; simpl.
  - rewrite (IH (Pos.iter xO m d)). apply IH.
  - rewrite (IH (Pos.iter xO m d)). apply IH.
  - reflexivity.
Qed.

Lemma fexp_small d : 1 <= d -> fexp prec emax d = d - 53.
Proof. intros H. unfold fexp, emin, prec, emax. lia. Qed.

Lemma round_aux_canon (n : positive) :
  Zpos n < 2 ^ 53 ->
  let dn := Zpos (digits2_pos n) in
  binary_round_aux prec emax false (Zpos (shiftp n (53 - dn))) (dn - 53) loc_Exact
  = canon n.
Proof.
  intros Hn dn.
  assert (Hdn : 1 <= dn <= 53) by (split; [subst dn; lia | apply digits_bound; lia]).
  unfold binary_round_aux, shr_fexp. simpl Zdigits2.
  rewrite shiftp_digits by lia. fold dn.
  replace (dn + (53 - dn) + (dn - 53)) with dn by lia.
  rewrite fexp_small by lia. rewrite Z.sub_diag. simpl.
  rewrite shiftp_digits by lia. fold dn.
  replace (dn + (53 - dn) + (dn - 53)) with dn by lia.
  rewrite fexp_small by lia. rewrite Z.sub_diag. simpl.
  replace (dn - 53 <=? emax - prec) with true
    by (symmetry; apply Z.leb_le; unfold emax, prec; lia).
  reflexivity.
Qed.

Lemma binary_round_canon (n : positive) (j : Z) :
  0 <= j -> Zpos n < 2 ^ 53 ->
  binary_round prec emax false (shiftp n j) (- j) = canon n.
Proof.
  intros Hj Hn.
  set (dn := Zpos (digits2_pos n)).
  assert (Hdn : 1 <= dn <= 53) by (split; [subst dn; lia | apply digits_bound; lia]).
  unfold binary_round.
  rewrite shiftp_digits by lia. fold dn.
  replace (dn + j + - j) with dn by lia.
  rewrite fexp_small by lia.
  unfold shl_align.
  destruct (dn - 53 - - j) as [| d | d] eqn:Hd.
  - (* already aligned *)
    assert (Hj' : j = 53 - dn) by lia. subst j.
    replace (- (53 - dn)) with (dn - 53) by lia.
    apply round_aux_canon. exact Hn.
  - (* too many digits: shift right by d *)
    unfold binary_round_aux, shr_fexp. simpl Zdigits2.
    rewrite shiftp_digits by lia. fold dn.
    replace (dn + j + - j) with dn by lia.
    rewrite fexp_small by lia. rewrite Hd.
    unfold shr.
    assert (Hsplit : shiftp n j = Pos.iter xO (shiftp n (53 - dn)) d).
    { change (Pos.iter xO (shiftp n (53 - dn)) d)
        with (shiftp (shiftp n (53 - dn)) (Zpos d)).
      rewrite shiftp_shiftp by lia. f_equal. lia. }
    rewrite Hsplit. simpl shr_record_of_loc. rewrite shr_exact.
    cbn [shr_m loc_of_shr_record round_nearest_even].
    replace (- j + Zpos d) with (dn - 53) by lia.
    pose proof (round_aux_canon n Hn) as Hc. fold dn in Hc.
    unfold binary_round_aux, shr_fexp in Hc. simpl Zdigits2 in Hc.
    revert Hc.
    rewrite shiftp_digits by lia. fold dn.
    replace (dn + (53 - dn) + (dn - 53)) with dn by lia.
    rewrite fexp_small by lia. rewrite Z.sub_diag. simpl.
    rewrite shiftp_digits by lia. fold dn.
    replace (dn + (53 - dn) + (dn - 53)) with dn by lia.
    rewrite fexp_small by lia. rewrite Z.sub_diag. simpl.
    intros Hc. exact Hc.
  - (* too few digits: shift left by d *)
    replace (Pos.iter xO (shiftp n j) d) with (shiftp n (53 - dn)).
    + apply round_aux_canon. exact Hn.
    + change (Pos.iter xO (shiftp n j) d) with (shiftp (shiftp n j) (Zpos d)).
      rewrite shiftp_shiftp by lia. f_equal. lia.
Qed.

Lemma canon_valid (n : positive) :
  Zpos n < 2 ^ 53 -> SpecFloat.valid_binary prec emax (canon n) = true.
Proof.
  intros Hn. set (dn := Zpos (digits2_pos n)).
  assert (Hdn : 1 <= dn <= 53) by (split; [subst dn; lia | apply digits_bound; lia]).
  unfold canon, SpecFloat.valid_binary, bounded, canonical_mantissa. fold dn.
  rewrite shiftp_digits by lia. fold dn.
  replace (dn + (53 - dn) + (dn - 53)) with dn by lia.
  rewrite fexp_small by lia. rewrite Z.eqb_refl. simpl.
  apply Z.leb_le. unfold emax, prec. lia.
Qed.

Lemma Prim2SF_of_Z_pos (n : positive) :
  Zpos n < 2 ^ 53 -> Prim2SF (Num.of_Z (Zpos n)) = canon n.
Proof.
  intros Hn. unfold Num.of_Z, binary_normalize.
  pose proof (binary_round_canon n 0 (Z.le_refl 0) Hn) as H.
  change (shiftp n 0) with n in H. change (- 0) with 0 in H.
  rewrite H. apply Prim2SF_SF2Prim, canon_valid, Hn.
Qed.

Lemma shl_align_fst (m : positive) (e ez : Z) :
  ez <= e -> fst (shl_align m e ez) = shiftp m (e - ez).
Proof.
  intros Hle. unfold shl_align.
  destruct (ez - e) as [| d | d] eqn:Hd; simpl.
  - replace (e - ez) with 0 by lia. reflexivity.
  - lia.
  - replace (e - ez) with (Zpos d) by lia. reflexivity.
Qed.

Lemma SFadd_canon (a b : positive) :
  Zpos a + Zpos b < 2 ^ 53 ->
  SFadd prec emax (canon a) (canon b) = canon (a + b).
Proof.
  intros Hsum.
  set (da := Zpos (digits2_pos a)). set (db := Zpos (digits2_pos b)).
  assert (Hda : 1 <= da <= 53) by (split; [subst da; lia | apply digits_bound; lia]).
  assert (Hdb : 1 <= db <= 53) by (split; [subst db; lia | apply digits_bound; lia]).
  unfold canon. fold da db. unfold SFadd.
  set (ez := Z.min (da - 53) (db - 53)).
  rewrite !shl_align_fst by (subst ez; lia).
  rewrite !shiftp_shiftp by (subst ez; lia).
  replace (53 - da + (da - 53 - ez)) with (- ez) by lia.
  replace (53 - db + (db - 53 - ez)) with (- ez) by lia.
  unfold cond_Zopp.
  assert (Hadd : Zpos (shiftp a (- ez)) + Zpos (shiftp b (- ez))
                 = Zpos (shiftp (a + b) (- ez))).
  { rewrite !shiftp_value by (subst ez; lia). lia. }
  rewrite Hadd. unfold binary_normalize.
  replace ez with (- - ez) at 2 by lia.
  apply binary_round_canon; [subst ez; lia | lia].
Qed.

Lemma of_Z_add (a b : Z) :
  0 <= a -> 0 <= b -> a + b < 2 ^ 53 ->
  (Num.of_Z a + Num.of_Z b)%float = Num.of_Z (a + b).
Proof.
  intros Ha Hb Hsum. apply Prim2SF_inj. rewrite add_spec.
  destruct a as [| a | a]; [| | lia]; destruct b as [| b | b]; try lia.
  - reflexivity.
  - change (0 + Zpos b) with (Zpos b). rewrite Prim2SF_of_Z_pos by lia.
    change (Prim2SF (Num.of_Z 0)) with (S754_zero false). reflexivity.
  - change (Zpos a + 0) with (Zpos a). rewrite Prim2SF_of_Z_pos by lia.
    change (Prim2SF (Num.of_Z 0)) with (S754_zero false). reflexivity.
  - rewrite !Prim2SF_of_Z_pos by lia.
    change (Zpos a + Zpos b) with (Zpos (a + b)).
    rewrite Prim2SF_of_Z_pos by lia.
    unfold SF64add. apply SFadd_canon. exact Hsum.
Qed.

Lemma to_Z_nonneg (x : Num.number) : 0 <= to_Z x.
Proof.
  unfold to_Z. destruct (Prim2SF x) as [| | | [] m e]; try lia.
  destruct (0 <=? e) eqn:E.
  - apply Z.leb_le in E. apply Z.mul_nonneg_nonneg; [lia |].
    apply Z.pow_nonneg. lia.
  - apply Z.div_pos; [lia |]. apply Z.pow_pos_nonneg; lia.
Qed.

Lemma Zsum_app (l1 l2 : list Z) : Zsum (l1 ++ l2) = Zsum l1 + Zsum l2.
Proof. induction l1 as [| a l1 IH]; simpl; lia. Qed.

Lemma Zsum_Permutation (l1 l2 : list Z) : l1 ≡ₚ l2 -> Zsum l1 = Zsum l2.
Proof. induction 1; simpl; lia. Qed.

Lemma fold_add_of_Z (ks : list Z) :
  forall acc,
    Forall (fun k => 0 <= k) ks -> 0 <= acc -> acc + Zsum ks < 2 ^ 53 ->
    fold_left PrimFloat.add (map Num.of_Z ks) (Num.of_Z acc)
    = Num.of_Z (acc + Zsum ks).
Proof.
  induction ks as [| k ks IH]; intros acc Hks Hacc Hsum; simpl in *.
  - f_equal. lia.
  - inversion Hks as [| ? ? Hk Hks']; subst.
    assert (Hrest : 0 <= Zsum ks).
    { clear -Hks'. induction Hks'; simpl; lia. }
    rewrite of_Z_add by lia. rewrite IH by (try assumption; lia).
    f_equal. lia.
Qed.

Lemma fsum_of_Z (ks : list Z) :
  Forall (fun k => 0 <= k) ks -> Zsum ks < 2 ^ 53 ->
  fsum (map Num.of_Z ks) = Num.of_Z (Zsum ks).
Proof.
  intros Hks Hsum. unfold fsum.
  change Num.pos_zero with (Num.of_Z 0).
  rewrite fold_add_of_Z by (try assumption; lia). reflexivity.
Qed.

Lemma whole_total_nonneg (l : list App.Expense) : 0 <= whole_total l.
Proof.
  unfold whole_total. induction l as [| e l IH]; simpl; [lia |].
  pose proof (to_Z_nonneg (App.amount e)). lia.
Qed.

Lemma whole_total_filter (f : App.Expense -> bool) (l : list App.Expense) :
  whole_total (List.filter f l) <= whole_total l.
Proof.
  unfold whole_total. induction l as [| e l IH]; simpl; [lia |].
  pose proof (to_Z_nonneg (App.amount e)).
  destruct (f e); simpl; lia.
Qed.

Lemma whole_total_Permutation (l1 l2 : list App.Expense) :
  l1 ≡ₚ l2 -> whole_total l1 = whole_total l2.
Proof.
  intros H. unfold whole_total. apply Zsum_Permutation.
  apply Permutation_map. exact H.
Qed.

Lemma whole_total_concat (ls : list (list App.Expense)) :
  whole_total (concat ls) = Zsum (map whole_total ls).
Proof.
  induction ls as [| l ls IH]; simpl; [reflexivity |].
  unfold whole_total in *. rewrite map_app, Zsum_app, IH. reflexivity.
Qed.

Lemma fsum_whole (es : list App.Expense) :
  Forall (fun e => whole (App.amount e)) es -> whole_total es < 2 ^ 53 ->
  fsum (map App.amount es) = Num.of_Z (whole_total es).
Proof.
  intros Hwhole Hsum.
  assert (Hmap : map App.amount es
                 = map Num.of_Z (map (fun e => to_Z (App.amount e)) es)).
  { rewrite map_map. apply map_ext_in. intros e He.
    rewrite List.Forall_forall in Hwhole. exact (Hwhole e He). }
  rewrite Hmap. apply fsum_of_Z; [| exact Hsum].
  apply List.Forall_forall. intros k Hk. apply in_map_iff in Hk.
  destruct Hk as (e & <- & _). apply to_Z_nonneg.
Qed.

Section WholeTotals.
Variables tz now : Z.
Variable l : list App.Expense.
Hypothesis Hwhole : Forall (fun e => whole (App.amount e)) l.
Hypothesis Hbound : whole_total l < 2 ^ 53.

Let som := App.startOfMonth tz now.

Lemma filter_whole (f : App.Expense -> bool) :
  Forall (fun e => whole (App.amount e)) (List.filter f l)
  /\ whole_total (List.filter f l) < 2 ^ 53.
Proof.
  split.
  - apply List.Forall_forall. intros e He. apply List.filter_In in He.
    rewrite List.Forall_forall in Hwhole. apply Hwhole, He.
  - pose proof (whole_total_filter f l). lia.
Qed.

Lemma monthlySpent_whole :
  App.monthlySpent (App.aggregates tz now l)
  = Num.of_Z (whole_total (List.filter (on_or_after tz som) l)).
Proof.
  rewrite aggregates_monthlySpent. unfold amounts_from. fold som.
  destruct (filter_whole (on_or_after tz som)) as [Hw Hb].
  apply fsum_whole; assumption.
Qed.

Lemma categoryTotal_whole (c : string) :
  In c App.CATEGORIES ->
  App.categoryTotals (App.aggregates tz now l) !! c
  = Some (Num.of_Z (whole_total (List.filter (in_category tz som c) l))).
Proof.
  intros Hc. apply is_category_In in Hc.
  rewrite aggregates_categoryTotals, Hc. fold som. f_equal.
  destruct (filter_whole (in_category tz som c)) as [Hw Hb].
  unfold amounts_of. apply fsum_whole; assumption.
Qed.

Lemma whole_totals_sum (order : list string) :
  order ≡ₚ App.CATEGORIES ->
  Forall (fun e => In (App.category e) App.CATEGORIES) l ->
  sum_of_totals order (App.categoryTotals (App.aggregates tz now l))
  = App.monthlySpent (App.aggregates tz now l).
Proof.
  intros Horder Hcats.
  set (T := fun c => whole_total (List.filter (in_category tz som c) l)).
  assert (Hsum : Zsum (map T order)
                 = whole_total (List.filter (on_or_after tz som) l)).
  { rewrite (Zsum_Permutation _ (map T App.CATEGORIES))
      by (apply Permutation_map; exact Horder).
    rewrite (whole_total_Permutation _ _ (expenses_partition tz som l)).
    assert (Hnone : List.filter (outside_categories tz som) l = []).
    { apply filter_drops_all. intros e He.
      rewrite List.Forall_forall in Hcats. specialize (Hcats e He).
      apply is_category_In in Hcats. unfold outside_categories.
      rewrite Hcats. apply andb_false_r. }
    rewrite Hnone, app_nil_r, whole_total_concat, map_map. reflexivity. }
  rewrite monthlySpent_whole, <- Hsum. unfold sum_of_totals.
  assert (Hmap : map (fun c => default Num.NaN
                                 (App.categoryTotals (App.aggregates tz now l) !! c))
                   order
                 = map Num.of_Z (map T order)).
  { rewrite map_map. apply map_ext_in. intros c Hc.
    rewrite categoryTotal_whole; [reflexivity |].
    apply (Permutation_in _ Horder). exact Hc. }
  rewrite Hmap. apply fsum_of_Z.
  - apply List.Forall_forall. intros k Hk. apply in_map_iff in Hk.
    destruct Hk as (c & <- & _). apply whole_total_nonneg.
  - rewrite Hsum. pose proof (whole_total_filter (on_or_after tz som) l). lia.
Qed.

End WholeTotals.

(** C6, as the code has it: each of the five totals is the sum of the
    amounts of its own category in the month, [monthlySpent] is the sum
    of all amounts in the month, and these are the same amounts, with
    those of an out-of-set category on top ([weeklySpent] takes every
    category too); the five totals add up to [monthlySpent] exactly, in
    any order, when the categories are in the set and the amounts are
    whole numbers with a total below [2^53]. *)
Theorem category_totals_account (tz now : Z) (l : list App.Expense) :
  let agg := App.aggregates tz now l in
  let som := App.startOfMonth tz now in
  (forall c, In c App.CATEGORIES ->
             App.categoryTotals agg !! c = Some (fsum (amounts_of tz som c l)))
  /\ App.monthlySpent agg = fsum (amounts_from tz som l)
  /\ App.weeklySpent agg = fsum (amounts_from tz (App.startOfWeek tz now) l)
  /\ amounts_from tz som l
     ≡ₚ concat (map (fun c => amounts_of tz som c l) App.CATEGORIES)
        ++ amounts_outside tz som l
  /\ (forall order,
         order ≡ₚ App.CATEGORIES ->
         Forall (fun e => In (App.category e) App.CATEGORIES) l ->
         Forall (fun e => whole (App.amount e)) l ->
         whole_total l < 2 ^ 53 ->
         sum_of_totals order (App.categoryTotals agg) = App.monthlySpent agg).
Proof.
  intros agg som. subst agg som.
  split; [| split; [| split; [| split]]].
  - intros c Hc. apply is_category_In in Hc.
    rewrite aggregates_categoryTotals, Hc. reflexivity.
  - apply aggregates_monthlySpent.
  - apply aggregates_weeklySpent.
  - apply amounts_partition.
  - intros order Horder Hcats Hwhole Hbound.
    apply whole_totals_sum; assumption.
Qed.

(** C6 at work: 100 and 7 for Food, 12 for Travel; the five totals add
    up to the 119 of [monthlySpent]. *)
Lemma category_totals_account_example :
  sum_of_totals App.CATEGORIES
    (App.categoryTotals (App.aggregates 19800000 1720593000000 rupees))
  = App.monthlySpent (App.aggregates 19800000 1720593000000 rupees).
Proof.
  destruct (category_totals_account 19800000 1720593000000 rupees)
    as (_ & _ & _ & _ & Hexact).
  apply Hexact.
  - reflexivity.
  - repeat constructor; simpl; tauto.
  - repeat constructor; vm_compute; reflexivity.
  - vm_compute. reflexivity.
Defined.

(** ** Writing through *)

Section WriteThrough.
Variable tz : Z.

Lemma saveData_available (data : Storage.AppData) (w : Browser.window) :
  Browser.available (Browser.storage w) = true ->
  let w' := Storage.saveData data w in
  let text := JS.stringify (Storage.object_of data) in
  Browser.available (Browser.storage w') = true
  /\ Browser.accepts (Browser.storage w') = Browser.accepts (Browser.storage w)
  /\ Browser.calls (Browser.storage w')
     = Browser.calls (Browser.storage w) ++ [(Storage.STORAGE_KEY, text)]
  /\ (Browser.accepts (Browser.storage w) Storage.STORAGE_KEY text = true ->
      persisted w' = Some text).
Proof.
  intros Hav. unfold Storage.saveData, Browser.setItem, persisted. rewrite Hav.
  destruct (Browser.accepts (Browser.storage w) Storage.STORAGE_KEY _) eqn:Hacc;
    simpl; repeat split; try assumption; try discriminate.
  intros _. apply lookup_insert_eq.
Qed.

(** An event that changes no dependency leaves the text to write as
    it was. *)
Lemma unchanged_serialized (ev : App.event) (st : App.State) :
  App.deps_changed (App.handle tz ev st).2 st (App.handle tz ev st).1 = false ->
  serialized (App.handle tz ev st).1 = serialized st.
Proof.
  unfold App.deps_changed.
  destruct ev as [newExpense now | id0 | value | value | p]; simpl.
  - destruct (App.handleSubmit tz now newExpense st); simpl;
      [discriminate | reflexivity].
  - discriminate.
  - intros H. apply orb_false_elim in H. destruct H as [H _].
    apply negb_false_iff, Object_is_eq in H.
    unfold App.handleWeeklyChange in *. simpl in H. rewrite <- H.
    destruct st; reflexivity.
  - intros H. apply orb_false_elim in H. destruct H as [_ H].
    apply negb_false_iff, Object_is_eq in H.
    unfold App.handleMonthlyChange in *. simpl in H. rewrite <- H.
    destruct st; reflexivity.
  - intros _. reflexivity.
Qed.

Lemma run_write_through (evs : list App.event) :
  forall st w,
    Browser.available (Browser.storage w) = true ->
    always_saved tz evs st ->
    Browser.available (Browser.storage (App.run tz evs (st, w)).2) = true
    /\ Browser.calls (Browser.storage (App.run tz evs (st, w)).2)
       = Browser.calls (Browser.storage w)
         ++ map (fun s => (Storage.STORAGE_KEY, serialized s))
              (changed_states tz evs st)
    /\ ((forall k v, Browser.accepts (Browser.storage w) k v = true) ->
        persisted w = Some (serialized st) ->
        persisted (App.run tz evs (st, w)).2
        = Some (serialized (App.run tz evs (st, w)).1)).
Proof.
  induction evs as [| ev evs IH]; intros st w Hav Hsaved.
  - simpl. rewrite app_nil_r. repeat split; tauto.
  - rewrite run_cons. unfold always_saved in Hsaved. simpl in Hsaved.
    unfold App.dispatch. simpl changed_states.
    pose proof (unchanged_serialized ev st) as Hsame.
    destruct (App.handle tz ev st) as [st' fresh]. simpl in Hsame.
    destruct (App.deps_changed fresh st st') eqn:Hdeps.
    + simpl in Hsaved. inversion Hsaved as [| ? ? Hguard Hrest]; subst.
      unfold App.save_effect. rewrite Hguard.
      destruct (saveData_available (App.data_of st') w Hav)
        as (Hav' & Hacc' & Hcalls & Hput).
      destruct (IH st' (Storage.saveData (App.data_of st') w) Hav' Hrest)
        as (Hav'' & Hcalls'' & Hpersist).
      split; [exact Hav'' |]. split.
      * rewrite Hcalls'', Hcalls. simpl. rewrite <- app_assoc. reflexivity.
      * intros Hall _. apply Hpersist.
        -- rewrite Hacc'. exact Hall.
        -- apply Hput, Hall.
    + simpl in Hsaved.
      destruct (IH st' w Hav Hsaved) as (Hav'' & Hcalls'' & Hpersist).
      split; [exact Hav'' |]. split; [exact Hcalls'' |].
      intros Hall Hcons. apply Hpersist; [exact Hall |].
      rewrite Hsame by reflexivity. exact Hcons.
Qed.

End WriteThrough.

(** C1, as the code has it: an accepted addition and every deletion
    change a dependency of the saving effect, a target change does so
    when the value differs from the current one; along a run whose
    changed states have an expense or a positive target, each such
    change issues one [setItem] of the full changed state, in the order
    of the events, and nothing else is written; when the store accepts
    the writes, a store that held the text of the state before the run
    holds the text of the state after it. *)
Theorem write_through (tz : Z) (evs : list App.event) (st : App.State)
    (w : Browser.window) :
  Browser.available (Browser.storage w) = true ->
  always_saved tz evs st ->
  let st' := (App.run tz evs (st, w)).1 in
  let w' := (App.run tz evs (st, w)).2 in
  Browser.calls (Browser.storage w')
  = Browser.calls (Browser.storage w)
    ++ map (fun s => (Storage.STORAGE_KEY, serialized s)) (changed_states tz evs st)
  /\ ((forall k v, Browser.accepts (Browser.storage w) k v = true) ->
      persisted w = Some (serialized st) ->
      persisted w' = Some (serialized st'))
  /\ (forall s id0, App.deps_changed (App.handle tz (App.Delete id0) s).2 s
                      (App.handle tz (App.Delete id0) s).1 = true)
  /\ (forall s newExpense now,
         App.handleSubmit tz now newExpense s <> None ->
         App.deps_changed (App.handle tz (App.Submit newExpense now) s).2 s
           (App.handle tz (App.Submit newExpense now) s).1 = true)
  /\ (forall s value,
         App.deps_changed (App.handle tz (App.WeeklyChange value) s).2 s
           (App.handle tz (App.WeeklyChange value) s).1
         = negb (App.Object_is (App.weeklyTarget s)
                   (App.weeklyTarget (App.handleWeeklyChange value s))))
  /\ (forall s value,
         App.deps_changed (App.handle tz (App.MonthlyChange value) s).2 s
           (App.handle tz (App.MonthlyChange value) s).1
         = negb (App.Object_is (App.monthlyTarget s)
                   (App.monthlyTarget (App.handleMonthlyChange value s)))).
Proof.
  intros Hav Hsaved st' w'. subst st' w'.
  destruct (run_write_through tz evs st w Hav Hsaved) as (_ & Hcalls & Hpersist).
  split; [exact Hcalls |]. split; [exact Hpersist |].
  split; [reflexivity |]. split; [| split].
  - intros s newExpense now Haccepted. simpl.
    destruct (App.handleSubmit tz now newExpense s); [reflexivity | contradiction].
  - intros s value. unfold App.deps_changed. simpl.
    rewrite Object_is_refl. apply orb_false_r.
  - intros s value. unfold App.deps_changed. simpl.
    rewrite Object_is_refl. reflexivity.
Qed.

(** C1 at work: after the mount of an empty store, an addition, a
    rejected addition, a new weekly target and a deletion issue three
    writes, and the store holds the final state. *)
Lemma write_through_example :
  let evs := [submit "12.5" "Travel" "2024-07-10" 1720569600001;
              submit "abc" "Food" "2024-07-10" 1720569600002;
              App.WeeklyChange "750";
              App.Delete (Num.of_Z 1720569600001)] in
  let st := state_with [] (Num.of_Z 500) (Num.of_Z 2000) in
  let w := window_with (Some (serialized st)) in
  length (Browser.calls (Browser.storage (App.run 19800000 evs (st, w)).2)) = 3%nat
  /\ persisted (App.run 19800000 evs (st, w)).2
     = Some (serialized (App.run 19800000 evs (st, w)).1).
Proof.
  intros evs st w.
  destruct (write_through 19800000 evs st w) as (Hcalls & Hpersist & _).
  - reflexivity.
  - unfold always_saved. vm_compute. repeat constructor.
  - split.
    + rewrite Hcalls. vm_compute. reflexivity.
    + apply Hpersist; [intros k v |]; reflexivity.
Defined.

(** C1 fails as stated.  Setting the weekly target to the value it has
    issues no write.  And with both targets at 0, deleting the last
    expense issues no write either: the store keeps the record with the
    expense, which differs from the state, and the next mount brings
    the expense back. *)
Lemma no_write_after_mutation :
  let tz := 19800000 in
  let st := state_with [] (Num.of_Z 500) (Num.of_Z 2000) in
  let w := window_with (Some (serialized st)) in
  Browser.calls (Browser.storage (App.dispatch tz (App.WeeklyChange "500") (st, w)).2)
  = []
  /\ let w0 := window_with (Some (serialized last_expense)) in
     let st' := (App.dispatch tz (App.Delete (Num.of_Z 1)) (last_expense, w0)).1 in
     let w' := (App.dispatch tz (App.Delete (Num.of_Z 1)) (last_expense, w0)).2 in
     App.expenses st' = []
     /\ Browser.calls (Browser.storage w') = []
     /\ persisted w' = Some (serialized last_expense)
     /\ persisted w' <> Some (serialized st')
     /\ option_map (fun sw => App.expenses sw.1) (App.mount w')
        = Some (App.expenses last_expense).
Proof.
  split; [vm_compute; reflexivity |].
  split; [vm_compute; reflexivity |].
  split; [vm_compute; reflexivity |].
  split; [vm_compute; reflexivity |].
  split; [| vm_compute; reflexivity].
  intros H. vm_compute in H. discriminate H.
Qed.
